(** * Vimput formatter worker: resolution, invocation and daemon launch

    A shallow embedding of [vimput-formatter.py]: the formatter registry
    [FORMATTERS], the resolver [find_formatter], the command builder and
    outcome classification of [format_code], the listing
    [get_available_formatters], the [/format] endpoint, the Unix
    double-fork launch sequence of [start_background], and the
    installation prompts. [shutil.which] and [subprocess.run] are
    interfaces of the host; for the behaviour on a timeout
    [subprocess.run] is written out as the standard library has it.

    A Python [str] is modelled as the [string] of its UTF-8 bytes, so
    that every text has a value, equal texts have equal values and
    concatenation is concatenation; the functions that look at characters
    ([strip]) read the bytes as UTF-8. A [dict] with string keys is a
    [gmap]; the registry, whose declaration order matters, an association
    list. *)

From Stdlib Require Import ZArith Lia Ascii String.
From Stdlib Require QArith.
From Stdlib Require Import DecimalString DecimalZ DecimalFacts.
From stdpp Require Import base option list strings gmap.

Local Open Scope Z_scope.

(** ** Python values and built-ins *)

Module Py.

(** The values a decoded JSON document can hold at a dictionary key.
    [POther] stands for a float, a list or a nested dict and carries the
    text [str()] gives for it; it is equal to no string. *)
Inductive pyval : Type :=
  | PNone
  | PBool (b : bool)
  | PInt (n : Z)
  | PStr (s : string)
  | POther (repr : string).

(** [str(n)] for an integer: decimal digits, with a leading minus sign
    below zero. *)
Definition str_int (n : Z) : string := NilZero.string_of_int (Z.to_int n).

(** [str(v)]. *)
Definition str (v : pyval) : string :=
  match v with
  | PNone => "None"
  | PBool true => "True"
  | PBool false => "False"
  | PInt n => str_int n
  | PStr s => s
  | POther repr => repr
  end.

(** [v == s] for a string literal [s]. *)
Definition eq_str (v : pyval) (s : string) : bool :=
  match v with
  | PStr t => String.eqb t s
  | _ => false
  end.

(** Truth value of a string: non-empty. *)
Definition truthy (s : string) : bool :=
  match s with
  | EmptyString => false
  | String _ _ => true
  end.

(** Truth value of an [Optional[str]]. *)
Definition truthy_opt (o : option string) : bool :=
  match o with
  | None => false
  | Some s => truthy s
  end.

(** [a or b] on strings. *)
Definition or_else (a b : string) : string := if truthy a then a else b.

(** The characters [str.isspace()] accepts, and so [str.strip()]
    removes, by the length of their UTF-8 form. One byte: U+0009 to
    U+000D, U+001C to U+001F and the space U+0020. *)
Definition space_1byte (c : ascii) : bool :=
  let n := N_of_ascii c in
  (((9 <=? n) && (n <=? 13)) || ((28 <=? n) && (n <=? 32)))%N.

(** Two bytes: U+0085 (C2 85) and U+00A0 (C2 A0). *)
Definition space_2bytes (c1 c2 : ascii) : bool :=
  let n1 := N_of_ascii c1 in
  let n2 := N_of_ascii c2 in
  ((n1 =? 194) && ((n2 =? 133) || (n2 =? 160)))%N.

(** Three bytes: U+1680 (E1 9A 80), U+2000 to U+200A (E2 80 80 to
    E2 80 8A), U+2028 and U+2029 (E2 80 A8, E2 80 A9), U+202F (E2 80 AF),
    U+205F (E2 81 9F) and U+3000 (E3 80 80). *)
Definition space_3bytes (c1 c2 c3 : ascii) : bool :=
  let n1 := N_of_ascii c1 in
  let n2 := N_of_ascii c2 in
  let n3 := N_of_ascii c3 in
  (((n1 =? 225) && (n2 =? 154) && (n3 =? 128))
   || ((n1 =? 226) && (n2 =? 128)
       && (((128 <=? n3) && (n3 <=? 138))
           || (n3 =? 168) || (n3 =? 169) || (n3 =? 175)))
   || ((n1 =? 226) && (n2 =? 129) && (n3 =? 159))
   || ((n1 =? 227) && (n2 =? 128) && (n3 =? 128)))%N.

(** [s.lstrip()]: the whitespace characters at the front are dropped. *)
Fixpoint lstrip (s : string) : string :=
  match s with
  | EmptyString => EmptyString
  | String c1 r1 =>
      if space_1byte c1 then lstrip r1
      else
        match r1 with
        | EmptyString => s
        | String c2 r2 =>
            if space_2bytes c1 c2 then lstrip r2
            else
              match r2 with
              | EmptyString => s
              | String c3 r3 =>
                  if space_3bytes c1 c2 c3 then lstrip r3 else s
              end
        end
  end.

(** [s.rstrip()]: the text is cut where only whitespace follows. A byte
    inside a character starts no whitespace, so the cut falls between
    characters. *)
Fixpoint rstrip (s : string) : string :=
  match s with
  | EmptyString => EmptyString
  | String c r =>
      match lstrip s with
      | EmptyString => EmptyString
      | String _ _ => String c (rstrip r)
      end
  end.

(** [s.strip()]. *)
Definition strip (s : string) : string := rstrip (lstrip s).

(** Some character of [s] is not whitespace: something is left once the
    whitespace at the front is dropped. *)
Definition has_nonspace (s : string) : bool := truthy (lstrip s).

(** [d.get(k, default)]. *)
Definition dict_get (d : gmap string pyval) (k : string) (default : pyval)
  : pyval :=
  match d !! k with
  | Some v => v
  | None => default
  end.

(** Item lookup in a dictionary written as a literal with distinct keys,
    kept in declaration order. *)
Fixpoint assoc {V : Type} (d : list (string * V)) (k : string) : option V :=
  match d with
  | [] => None
  | (k', v) :: rest => if String.eqb k' k then Some v else assoc rest k
  end.

End Py.

Import Py.

(** ** The formatter registry *)

(** One registry entry: program name, argument template, and the third
    component of the tuple, which the source leaves [None] everywhere. *)
Definition candidate : Type := string * list string * pyval.

Definition FORMATTERS : list (string * list candidate) :=
  [ ("javascript",
      [ ("prettier", ["--parser"; "babel"; "--stdin-filepath"; "file.js"], PNone);
        ("biome", ["format"; "--stdin-file-path"; "file.js"], PNone) ]);
    ("typescript",
      [ ("prettier", ["--parser"; "typescript"; "--stdin-filepath"; "file.ts"], PNone);
        ("biome", ["format"; "--stdin-file-path"; "file.ts"], PNone) ]);
    ("jsx",
      [ ("prettier", ["--parser"; "babel"; "--stdin-filepath"; "file.jsx"], PNone);
        ("biome", ["format"; "--stdin-file-path"; "file.jsx"], PNone) ]);
    ("tsx",
      [ ("prettier", ["--parser"; "typescript"; "--stdin-filepath"; "file.tsx"], PNone);
        ("biome", ["format"; "--stdin-file-path"; "file.tsx"], PNone) ]);
    ("python",
      [ ("ruff", ["format"; "-"], PNone);
        ("black", ["-"], PNone) ]);
    ("css",
      [ ("prettier", ["--parser"; "css"; "--stdin-filepath"; "file.css"], PNone) ]);
    ("html",
      [ ("prettier", ["--parser"; "html"; "--stdin-filepath"; "file.html"], PNone) ]);
    ("json",
      [ ("prettier", ["--parser"; "json"; "--stdin-filepath"; "file.json"], PNone);
        ("biome", ["format"; "--stdin-file-path"; "file.json"], PNone) ]);
    ("markdown",
      [ ("prettier", ["--parser"; "markdown"; "--stdin-filepath"; "file.md"], PNone) ]);
    ("yaml",
      [ ("prettier", ["--parser"; "yaml"; "--stdin-filepath"; "file.yaml"], PNone) ]);
    ("graphql",
      [ ("prettier", ["--parser"; "graphql"; "--stdin-filepath"; "file.graphql"], PNone) ]);
    ("bash",
      [ ("shfmt", ["-"], PNone) ]);
    ("sql",
      [ ("sqlfluff", ["fix"; "-f"; "ansi"; "-"], PNone);
        ("sql-formatter", [], PNone) ]);
    ("go",
      [ ("gofmt", [], PNone) ]);
    ("rust",
      [ ("rustfmt", [], PNone) ]);
    ("java",
      [ ("google-java-format", ["-"], PNone) ]);
    ("c",
      [ ("clang-format", [], PNone) ]);
    ("cpp",
      [ ("clang-format", [], PNone) ]) ].

(** ** The subprocess interface *)

(** The keyword arguments [format_code] passes to [subprocess.run]. *)
Record invocation : Type := Invocation {
  argv : list string;
  input : string;
  capture_output : bool;
  text : bool;
  timeout : Z
}.

(** What [subprocess.run] does: it returns a completed process, raises
    [TimeoutExpired], or raises another exception [e], kept as [str(e)]. *)
Inductive run_outcome : Type :=
  | Completed (returncode : Z) (stdout stderr : string)
  | TimeoutExpired
  | Raised (msg : string).

(** The triple [format_code] returns: success, result, error. *)
Definition format_result : Type := bool * string * option string.

(** The lines of [format_code] that add the indentation options to the
    command, by program name. *)
Definition indent_args (cmd : string) (indent_type indent_size : pyval)
  : list string :=
  if String.eqb cmd "prettier" then
    ["--tab-width"; str indent_size]
      ++ (if eq_str indent_type "tabs" then ["--use-tabs"] else [])
  else if String.eqb cmd "biome" then
    ["--indent-width"; str indent_size]
      ++ (if eq_str indent_type "tabs" then ["--indent-style"; "tab"] else [])
  else if String.eqb cmd "shfmt" then
    ["-i"; if eq_str indent_type "spaces" then str indent_size else "0"]
  else if String.eqb cmd "clang-format" then
    let style :=
      "{IndentWidth: " +:+ str indent_size +:+ ", UseTab: "
        +:+ (if eq_str indent_type "tabs" then "Always" else "Never") +:+ "}" in
    ["--style=" +:+ style]
  else if String.eqb cmd "rustfmt" then
    ["--config"; "tab_spaces=" +:+ str indent_size]
      ++ (if eq_str indent_type "tabs" then ["--config"; "hard_tabs=true"] else [])
  else [].

(** [full_cmd] as it stands when [subprocess.run] is called. *)
Definition build_command (cmd : string) (args : list string)
    (options : gmap string pyval) : list string :=
  let indent_type := dict_get options "indentType" (PStr "spaces") in
  let indent_size := dict_get options "indentSize" (PInt 2) in
  (cmd :: args) ++ indent_args cmd indent_type indent_size.

(** The call [subprocess.run(full_cmd, input=code, capture_output=True,
    text=True, timeout=10)]. *)
Definition run_call (full_cmd : list string) (code : string) : invocation :=
  {| argv := full_cmd; input := code; capture_output := true; text := true;
     timeout := 10 |}.

(** The body of the [try] block and its two handlers. *)
Definition classify (cmd code : string) (r : run_outcome) : format_result :=
  match r with
  | Completed returncode stdout stderr =>
      if returncode =? 0 then (true, stdout, None)
      else if truthy stdout && truthy (strip stdout) then (true, stdout, None)
      else
        let error :=
          or_else stderr (cmd +:+ " exited with code " +:+ str_int returncode) in
        (false, code, Some error)
  | TimeoutExpired => (false, code, Some "Formatter timed out")
  | Raised msg => (false, code, Some msg)
  end.

(** ** Resolution and invocation on a host *)

Section Host.

(** The state of the machine the worker runs on. *)
Context {host : Type}.

(** [shutil.which]: the path of a program on the search path, if any. *)
Variable which : host -> string -> option string.

(** [subprocess.run]: the outcome of the call and the host afterwards. *)
Variable subprocess_run : invocation -> host -> run_outcome * host.

(** The program of a candidate is found on the host. *)
Definition available (h : host) (c : candidate) : Prop :=
  truthy_opt (which h c.1.1) = true.

Fixpoint first_available (h : host) (formatters : list candidate)
  : option (string * list string) :=
  match formatters with
  | [] => None
  | (cmd, args, _) :: rest =>
      if truthy_opt (which h cmd) then Some (cmd, args)
      else first_available h rest
  end.

Definition find_formatter (h : host) (language : string)
  : option (string * list string) :=
  match assoc FORMATTERS language with
  | None => None
  | Some formatters => first_available h formatters
  end.

(** The invocation [format_code] makes, when it makes one. *)
Definition format_invocation (h : host) (code language : string)
    (options : gmap string pyval) : option invocation :=
  match find_formatter h language with
  | None => None
  | Some (cmd, args) => Some (run_call (build_command cmd args options) code)
  end.

Definition format_code (code language : string)
    (options : gmap string pyval) (h : host) : format_result * host :=
  match find_formatter h language with
  | None => ((false, code, Some ("No formatter found for " +:+ language)), h)
  | Some (cmd, args) =>
      let full_cmd := build_command cmd args options in
      let (r, h') := subprocess_run (run_call full_cmd code) h in
      (classify cmd code r, h')
  end.

(** The inner loop of [get_available_formatters] for one language:
    the first program found is recorded and the loop is left. *)
Fixpoint record_first (h : host) (lang : string) (formatters : list candidate)
    (available : gmap string string) : gmap string string :=
  match formatters with
  | [] => available
  | (cmd, _, _) :: rest =>
      if truthy_opt (which h cmd) then <[lang := cmd]> available
      else record_first h lang rest available
  end.

(** The outer loop over [FORMATTERS.items()]. *)
Fixpoint collect_available (h : host) (items : list (string * list candidate))
    (available : gmap string string) : gmap string string :=
  match items with
  | [] => available
  | (lang, formatters) :: rest =>
      collect_available h rest (record_first h lang formatters available)
  end.

Definition get_available_formatters (h : host) : gmap string string :=
  collect_available h FORMATTERS ∅.

(** The body of a [POST /format] request, once decoded: a JSON object
    whose fields, when present, have the documented types, text for
    [code] and [language] and an object for [options]. A body that is
    no object, or one with [null], a number or a list in one of these
    fields, makes the handler raise or behave otherwise and has no value
    here. *)
Record request_body : Type := RequestBody {
  body_code : option string;
  body_language : option string;
  body_options : option (gmap string pyval);
  body_other_keys : bool
}.

(** [not data] for an object: it has no key at all. *)
Definition body_empty (data : request_body) : bool :=
  match body_code data, body_language data, body_options data with
  | None, None, None => negb (body_other_keys data)
  | _, _, _ => false
  end.

(** The response of [format_endpoint]: status code and JSON object. *)
Definition response : Type := Z * gmap string pyval.

Definition format_endpoint (data : request_body) (h : host)
  : response * host :=
  if body_empty data then
    ((400, <["error" := PStr "No JSON body"]> {["success" := PBool false]}), h)
  else
    let code := default "" (body_code data) in
    let language := default "" (body_language data) in
    let options := default ∅ (body_options data) in
    if negb (truthy language) then
      ((400, <["error" := PStr "Language is required"]>
               {["success" := PBool false]}), h)
    else
      let '((success, result, error), h') :=
        format_code code language options h in
      let resp : gmap string pyval :=
        <["result" := PStr result]> {["success" := PBool success]} in
      let resp :=
        match error with
        | Some e => if truthy e then <["error" := PStr e]> resp else resp
        | None => resp
        end in
      ((200, resp), h').

End Host.

(** ** [int()] on text *)

Module PyInt.

Definition is_digit (c : ascii) : bool :=
  let n := N_of_ascii c in ((48 <=? n) && (n <=? 57))%N.

Fixpoint all_digits (s : string) : bool :=
  match s with
  | EmptyString => true
  | String c r => is_digit c && all_digits r
  end.

(** The digits of a literal, its underscores removed. An underscore is
    accepted only between two digits; [after_digit] tells whether the
    character before the current one was a digit. *)
Fixpoint digits_of (s : string) (after_digit : bool) : option string :=
  match s with
  | EmptyString => if after_digit then Some EmptyString else None
  | String c r =>
      if is_digit c then option_map (String c) (digits_of r true)
      else if Ascii.eqb c "_" && after_digit then digits_of r false
      else None
  end.

Definition nat_literal (s : string) : option Z :=
  match digits_of s false with
  | None => None
  | Some ds => option_map Z.of_uint (NilEmpty.uint_of_string ds)
  end.

(** [int(s)] in base ten: surrounding whitespace, an optional sign, then
    digits. [None] stands for [ValueError]. The digits are those of
    ASCII, the ones [str(n)] writes. *)
Definition int (s : string) : option Z :=
  match strip s with
  | String "+" r => nat_literal r
  | String "-" r => option_map Z.opp (nat_literal r)
  | t => nat_literal t
  end.

End PyInt.

(** ** The Unix launch sequence of [start_background] *)

Module Launch.

(** [b[:n]] and [b[n:]] on the bytes of the pipe. *)
Fixpoint take (n : nat) (s : string) : string :=
  match n, s with
  | S n', String c r => String c (take n' r)
  | _, _ => EmptyString
  end.

Fixpoint drop (n : nat) (s : string) : string :=
  match n, s with
  | S n', String _ r => drop n' r
  | _, _ => s
  end.

(** Where the launcher stands in the [pid > 0] branch of the first fork;
    [real_pid] is its local variable once it is assigned. *)
Inductive launcher_pc : Type :=
  | L_start                          (* about to call os.pipe() *)
  | L_pipe_created                   (* about to call os.fork() *)
  | L_forked                         (* about to call os.close(write_fd) *)
  | L_reading                        (* about to call os.read(read_fd, 32) *)
  | L_read (real_pid : string)       (* about to call os.close(read_fd) *)
  | L_waiting (real_pid : string)    (* about to call os.waitpid(pid, 0) *)
  | L_reaped (real_pid : string)     (* about to return *)
  | L_returned (real_pid : string) (handle : Z)
  | L_raised (real_pid : string).    (* int(real_pid) raised ValueError *)

(** The first child. *)
Inductive relay_pc : Type :=
  | R_absent                         (* not forked yet *)
  | R_start                          (* about to call os.close(read_fd) *)
  | R_read_closed                    (* about to call os.setsid() *)
  | R_session                        (* about to call os.fork() *)
  | R_forked                         (* about to call os.write(write_fd, ...) *)
  | R_written                        (* about to call os.close(write_fd) *)
  | R_write_closed                   (* about to call os._exit(0) *)
  | R_zombie (status : Z)            (* terminated, not waited for *)
  | R_reaped.                        (* terminated and waited for *)

(** The second child. *)
Inductive service_pc : Type :=
  | S_absent                         (* not forked yet *)
  | S_start                          (* about to call os.close(write_fd) *)
  | S_write_closed                   (* about to redirect the std streams *)
  | S_serving.                       (* inside run_server() *)

(** The three processes and what the kernel holds for them: the bytes in
    the pipe, and which process has which end of it open. The pipe only
    ever carries the digits the relay writes, on which [encode()] and
    [decode()] change nothing, so its content is kept as text. *)
Record system : Type := System {
  launcher : launcher_pc;
  relay : relay_pc;
  service : service_pc;
  pipe : string;
  l_rd : bool; l_wr : bool;
  r_rd : bool; r_wr : bool;
  s_rd : bool; s_wr : bool;
  relay_leads_session : bool
}.

Definition initial : system :=
  {| launcher := L_start; relay := R_absent; service := S_absent;
     pipe := EmptyString;
     l_rd := false; l_wr := false; r_rd := false; r_wr := false;
     s_rd := false; s_wr := false; relay_leads_session := false |}.

Definition set_launcher (pc : launcher_pc) (rd wr : bool) (k : system) : system :=
  {| launcher := pc; relay := relay k; service := service k; pipe := pipe k;
     l_rd := rd; l_wr := wr; r_rd := r_rd k; r_wr := r_wr k;
     s_rd := s_rd k; s_wr := s_wr k;
     relay_leads_session := relay_leads_session k |}.

Definition set_relay (pc : relay_pc) (rd wr : bool) (k : system) : system :=
  {| launcher := launcher k; relay := pc; service := service k; pipe := pipe k;
     l_rd := l_rd k; l_wr := l_wr k; r_rd := rd; r_wr := wr;
     s_rd := s_rd k; s_wr := s_wr k;
     relay_leads_session := relay_leads_session k |}.

Definition set_service (pc : service_pc) (rd wr : bool) (k : system) : system :=
  {| launcher := launcher k; relay := relay k; service := pc; pipe := pipe k;
     l_rd := l_rd k; l_wr := l_wr k; r_rd := r_rd k; r_wr := r_wr k;
     s_rd := rd; s_wr := wr;
     relay_leads_session := relay_leads_session k |}.

Definition set_pipe (bytes : string) (k : system) : system :=
  {| launcher := launcher k; relay := relay k; service := service k;
     pipe := bytes;
     l_rd := l_rd k; l_wr := l_wr k; r_rd := r_rd k; r_wr := r_wr k;
     s_rd := s_rd k; s_wr := s_wr k;
     relay_leads_session := relay_leads_session k |}.

Definition set_session (k : system) : system :=
  {| launcher := launcher k; relay := relay k; service := service k;
     pipe := pipe k;
     l_rd := l_rd k; l_wr := l_wr k; r_rd := r_rd k; r_wr := r_wr k;
     s_rd := s_rd k; s_wr := s_wr k;
     relay_leads_session := true |}.

(** Some process still has the write end, or the read end, open. *)
Definition writers (k : system) : bool := l_wr k || r_wr k || s_wr k.
Definition readers (k : system) : bool := l_rd k || r_rd k || s_rd k.

(** Who moves next. [RelayDies] is the relay terminating on its own at
    any point before its [os._exit(0)]. *)
Inductive actor : Type := Launcher | Relay | Service | RelayDies.

Section Pids.

(** What the two calls of [os.fork()] return in the parent. *)
Variables rpid spid : Z.

(** One system call of the launcher; [None] when the call blocks or the
    launcher is done. *)
Definition launcher_step (k : system) : option system :=
  match launcher k with
  | L_start => Some (set_launcher L_pipe_created true true k)
  | L_pipe_created =>
      Some (set_relay R_start (l_rd k) (l_wr k)
              (set_launcher L_forked (l_rd k) (l_wr k) k))
  | L_forked =>
      if 0 <? rpid then Some (set_launcher L_reading (l_rd k) false k)
      else None
  | L_reading =>
      if truthy (pipe k) then
        let data := take 32 (pipe k) in
        Some (set_pipe (drop 32 (pipe k))
                (set_launcher (L_read (strip data)) (l_rd k) (l_wr k) k))
      else if writers k then None
      else Some (set_launcher (L_read (strip EmptyString)) (l_rd k) (l_wr k) k)
  | L_read real_pid => Some (set_launcher (L_waiting real_pid) false (l_wr k) k)
  | L_waiting real_pid =>
      match relay k with
      | R_zombie _ =>
          Some (set_relay R_reaped (r_rd k) (r_wr k)
                  (set_launcher (L_reaped real_pid) (l_rd k) (l_wr k) k))
      | _ => None
      end
  | L_reaped real_pid =>
      if truthy real_pid then
        match PyInt.int real_pid with
        | Some n => Some (set_launcher (L_returned real_pid n) (l_rd k) (l_wr k) k)
        | None => Some (set_launcher (L_raised real_pid) (l_rd k) (l_wr k) k)
        end
      else Some (set_launcher (L_returned real_pid rpid) (l_rd k) (l_wr k) k)
  | L_returned _ _ | L_raised _ => None
  end.

(** One system call of the relay. Writing to a pipe nobody reads ends
    the relay with a broken-pipe error. *)
Definition relay_step (k : system) : option system :=
  match relay k with
  | R_start => Some (set_relay R_read_closed false (r_wr k) k)
  | R_read_closed => Some (set_session (set_relay R_session (r_rd k) (r_wr k) k))
  | R_session =>
      Some (set_service S_start (r_rd k) (r_wr k)
              (set_relay R_forked (r_rd k) (r_wr k) k))
  | R_forked =>
      if 0 <? spid then
        if readers k then
          Some (set_pipe (pipe k +:+ str_int spid)
                  (set_relay R_written (r_rd k) (r_wr k) k))
        else Some (set_relay (R_zombie 1) false false k)
      else None
  | R_written => Some (set_relay R_write_closed (r_rd k) false k)
  | R_write_closed => Some (set_relay (R_zombie 0) false false k)
  | R_absent | R_zombie _ | R_reaped => None
  end.

(** One system call of the service, up to [run_server()]. *)
Definition service_step (k : system) : option system :=
  match service k with
  | S_start => Some (set_service S_write_closed (s_rd k) false k)
  | S_write_closed => Some (set_service S_serving (s_rd k) (s_wr k) k)
  | S_absent | S_serving => None
  end.

Definition relay_dies (k : system) : option system :=
  match relay k with
  | R_absent | R_zombie _ | R_reaped => None
  | _ => Some (set_relay (R_zombie 1) false false k)
  end.

Definition step (a : actor) (k : system) : option system :=
  match a with
  | Launcher => launcher_step k
  | Relay => relay_step k
  | Service => service_step k
  | RelayDies => relay_dies k
  end.

(** A schedule is carried out from left to right; it is refused when
    one of its moves is not possible. *)
Fixpoint exec (schedule : list actor) (k : system) : option system :=
  match schedule with
  | [] => Some k
  | a :: rest =>
      match step a k with
      | Some k' => exec rest k'
      | None => None
      end
  end.

(** How far each program has come. *)
Definition launcher_stage (pc : launcher_pc) : nat :=
  match pc with
  | L_start => 0 | L_pipe_created => 1 | L_forked => 2 | L_reading => 3
  | L_read _ => 4 | L_waiting _ => 5 | L_reaped _ => 6
  | L_returned _ _ | L_raised _ => 7
  end%nat.

Definition relay_stage (pc : relay_pc) : nat :=
  match pc with
  | R_absent => 0 | R_start => 1 | R_read_closed => 2 | R_session => 3
  | R_forked => 4 | R_written => 5 | R_write_closed => 6
  | R_zombie _ => 7 | R_reaped => 8
  end%nat.

Definition service_stage (pc : service_pc) : nat :=
  match pc with
  | S_absent => 0 | S_start => 1 | S_write_closed => 2 | S_serving => 3
  end%nat.

(** The number of calls the three programs still have ahead. *)
Definition calls_left (k : system) : nat :=
  ((7 - launcher_stage (launcher k)) + (8 - relay_stage (relay k))
   + (3 - service_stage (service k)))%nat.

(** The launcher's [real_pid], once assigned. *)
Definition real_pid_of (pc : launcher_pc) : option string :=
  match pc with
  | L_read rp | L_waiting rp | L_reaped rp | L_returned rp _ | L_raised rp => Some rp
  | _ => None
  end.

(** What holds of every state the three programs can reach: who has
    which end of the pipe open, which stages go together, what the pipe
    and [real_pid] can hold, and what the launcher returns. *)
Record consistent (k : system) : Prop := Consistent {
  launcher_reads :
    l_rd k = (1 <=? launcher_stage (launcher k))%nat
             && (launcher_stage (launcher k) <=? 4)%nat;
  launcher_writes :
    l_wr k = (1 <=? launcher_stage (launcher k))%nat
             && (launcher_stage (launcher k) <=? 2)%nat;
  relay_reads : r_rd k = (relay_stage (relay k) =? 1)%nat;
  relay_writes :
    r_wr k = (1 <=? relay_stage (relay k))%nat
             && (relay_stage (relay k) <=? 5)%nat;
  service_reads : s_rd k = false;
  service_writes : s_wr k = (service_stage (service k) =? 1)%nat;
  relay_after_fork :
    (relay_stage (relay k) = 0 <-> launcher_stage (launcher k) <= 1)%nat;
  service_after_fork :
    (relay_stage (relay k) <= 3 -> service_stage (service k) = 0)%nat;
  reaped_after_wait :
    (relay_stage (relay k) = 8 <-> 6 <= launcher_stage (launcher k))%nat;
  pipe_before_write :
    (relay_stage (relay k) <= 4)%nat -> pipe k = EmptyString;
  pipe_content : pipe k = EmptyString \/ pipe k = str_int spid;
  real_pid_content :
    forall rp, real_pid_of (launcher k) = Some rp ->
      pipe k = EmptyString /\ (5 <= relay_stage (relay k))%nat
      /\ (rp = EmptyString \/ rp = str_int spid);
  returned_handle :
    forall rp handle, launcher k = L_returned rp handle ->
      handle = if truthy rp then spid else rpid;
  never_raised : forall rp, launcher k <> L_raised rp
}.

(** What holds in addition as long as the relay has not died: the text
    of [spid] is in the pipe from the relay's write until the launcher's
    read, and is what the launcher reads. *)
Record handed_over (k : system) : Prop := HandedOver {
  real_pid_is_service :
    forall rp, real_pid_of (launcher k) = Some rp -> rp = str_int spid;
  pipe_holds_service :
    (5 <= relay_stage (relay k))%nat ->
    (launcher_stage (launcher k) <= 3)%nat ->
    pipe k = str_int spid
}.

End Pids.

End Launch.

(** ** The leniency rule, as worded *)

(** Success whenever the exit status is not zero and standard output is
    not empty. *)
Definition lenient_on_nonempty_stdout : Prop :=
  forall (host : Type) (which : host -> string -> option string)
         (subprocess_run : invocation -> host -> run_outcome * host)
         (code language : string) (options : gmap string pyval) (h h' : host)
         (cmd : string) (args : list string) (rc : Z) (out err : string),
    find_formatter which h language = Some (cmd, args) ->
    subprocess_run (run_call (build_command cmd args options) code) h
      = (Completed rc out err, h') ->
    rc <> 0 -> out <> EmptyString ->
    format_code which subprocess_run code language options h
      = ((true, out, None), h').

(** ** Sample hosts *)

Module Sample.

(** A host is the list of the worker's running child processes. *)
Definition host : Type := list Z.

(** Only [prog] is installed, at [path]. *)
Definition only (prog path : string) : host -> string -> option string :=
  fun _ cmd => if String.eqb cmd prog then Some path else None.

(** Nothing is installed. *)
Definition nothing : host -> string -> option string := fun _ _ => None.

(** Every run ends the same way and leaves no child behind. *)
Definition always (r : run_outcome) : invocation -> host -> run_outcome * host :=
  fun _ h => (r, h).

(** A run that honours its timeout and fails past any other. *)
Definition timed (limit : Z) (r : run_outcome)
  : invocation -> host -> run_outcome * host :=
  fun inv h => if timeout inv =? limit then (r, h) else (Raised "unexpected timeout", h).

Definition newline : string := String (ascii_of_nat 10) EmptyString.

End Sample.

(** ** [subprocess.run] over the worker's child processes *)

(** [subprocess.run] belongs to Python's standard library. It is written
    out here as [Lib/subprocess.py] has it, over a table of the worker's
    child processes, for the one property that depends on what it does
    to the child: it starts the program with [Popen], collects the
    output with [communicate(input, timeout=timeout)] and, when that
    raises [TimeoutExpired], calls [process.kill()] and
    [process.wait()] before raising the exception again. Processes that
    the program starts itself are no children of the worker and are not
    in the table: [kill()] signals the child alone. *)
Module Subprocess.

Import QArith_base.

(** What a program does once asked to run with given arguments and
    input: it cannot be started ([Popen] raises [OSError]); it exits by
    itself after some seconds with a status and its two outputs; or it
    never exits by itself. *)
Inductive behaviour : Type :=
  | CannotStart (msg : string)
  | Exits (seconds : Q) (returncode : Z) (stdout stderr : string)
  | Hangs.

(** The child processes of the worker: those running, those that have
    ended and were not waited for yet, and the pid the next child gets. *)
Record host : Type := Host {
  running : list Z;
  ended : list Z;
  next_pid : Z
}.

(** [Popen(...)]: a new child runs. *)
Definition popen (h : host) : Z * host :=
  (next_pid h,
   {| running := next_pid h :: running h; ended := ended h;
      next_pid := next_pid h + 1 |}).

(** A running child ends. *)
Definition ends (pid : Z) (h : host) : host :=
  if decide (pid ∈ running h) then
    {| running := filter (fun p => p <> pid) (running h);
       ended := pid :: ended h; next_pid := next_pid h |}
  else h.

(** [process.kill()]: [SIGKILL] cannot be caught, the child ends; sent
    to a child that has ended already it does nothing. *)
Definition kill (pid : Z) (h : host) : host := ends pid h.

(** [process.wait()] on a child that has ended: it leaves the table. *)
Definition wait (pid : Z) (h : host) : host :=
  {| running := running h; ended := filter (fun p => p <> pid) (ended h);
     next_pid := next_pid h |}.

(** The program runs for longer than [limit] seconds. *)
Definition outlasts (b : behaviour) (limit : Z) : Prop :=
  match b with
  | CannotStart _ => False
  | Exits seconds _ _ _ => Qlt (inject_Z limit) seconds
  | Hangs => True
  end.

Section Run.

(** What the programs of the machine do. *)
Variable program : invocation -> behaviour.

(** [subprocess.run(argv, input=..., capture_output=True, text=True,
    timeout=...)]. [communicate] returns when the child has exited
    within the timeout, having waited for it, and raises
    [TimeoutExpired] otherwise, the child still running. *)
Definition run (inv : invocation) (h : host) : run_outcome * host :=
  match program inv with
  | CannotStart msg => (Raised msg, h)
  | Exits seconds returncode stdout stderr =>
      let (pid, h1) := popen h in
      if Qle_bool seconds (inject_Z (timeout inv)) then
        (Completed returncode stdout stderr, wait pid (ends pid h1))
      else
        (TimeoutExpired, wait pid (kill pid h1))
  | Hangs =>
      let (pid, h1) := popen h in
      (TimeoutExpired, wait pid (kill pid h1))
  end.

End Run.

(** [black] is installed and nothing else. *)
Definition only_black (_ : host) (cmd : string) : option string :=
  if String.eqb cmd "black" then Some "/usr/bin/black" else None.

(** Every program needs a quarter of a minute. *)
Definition all_slow (_ : invocation) : behaviour :=
  Exits (inject_Z 15) 0 "x = 1" "".

End Subprocess.

(** ** Installing what is missing *)

(** [s.lower()] on the letters of ASCII: [A] to [Z] move up by 32 and
    every other byte is kept. The source only compares the result with
    ["n"], and [n] and [N] are the only characters that lower to [n]. *)
Definition lower_char (c : ascii) : ascii :=
  let n := N_of_ascii c in
  if ((65 <=? n) && (n <=? 90))%N then ascii_of_N (n + 32) else c.

Fixpoint lower (s : string) : string :=
  match s with
  | EmptyString => EmptyString
  | String c r => String (lower_char c) (lower r)
  end.

(** [sep.join(parts)]. *)
Fixpoint join (sep : string) (parts : list string) : string :=
  match parts with
  | [] => EmptyString
  | [p] => p
  | p :: rest => p +:+ sep +:+ join sep rest
  end.

(** [INSTALL_COMMANDS]: for each program, its keys and their texts. *)
Definition INSTALL_COMMANDS : list (string * list (string * string)) :=
  [ ("prettier",
      [ ("npm", "npm install -g prettier");
        ("desc", "JS/TS/CSS/HTML/JSON/MD/YAML/GraphQL") ]);
    ("black", [ ("pip", "black"); ("desc", "Python") ]);
    ("ruff", [ ("pip", "ruff"); ("desc", "Python (faster)") ]);
    ("shfmt",
      [ ("brew", "shfmt");
        ("go", "go install mvdan.cc/sh/v3/cmd/shfmt@latest");
        ("desc", "Bash/Shell") ]);
    ("gofmt",
      [ ("note", "Included with Go installation"); ("desc", "Go") ]);
    ("rustfmt",
      [ ("note", "Included with Rust (rustup component add rustfmt)");
        ("desc", "Rust") ]);
    ("clang-format",
      [ ("brew", "clang-format"); ("apt", "clang-format"); ("desc", "C/C++") ]) ].

(** [INSTALL_COMMANDS.get(fmt, {})]. *)
Definition install_info (fmt : string) : list (string * string) :=
  default [] (assoc INSTALL_COMMANDS fmt).

(** [key in INSTALL_COMMANDS.get(fmt, {})]. *)
Definition has_key (key fmt : string) : bool :=
  match assoc (install_info fmt) key with
  | Some _ => true
  | None => false
  end.

(** [info.get(key, "")]; also [INSTALL_COMMANDS[fmt][key]], which the
    source evaluates only for programs that passed [has_key]. *)
Definition info_text (fmt key : string) : string :=
  default "" (assoc (install_info fmt) key).

(** The list [recommended] of [get_missing_formatters]. *)
Definition recommended : list string :=
  ["prettier"; "black"; "shfmt"; "gofmt"; "rustfmt"; "clang-format"].

(** What [subprocess.check_call] does: it returns, raises
    [CalledProcessError] for a non-zero exit status, or raises another
    exception [e], kept as [str(e)]. *)
Inductive call_outcome : Type :=
  | CallReturned
  | CalledProcessError (returncode : Z)
  | CallRaised (msg : string).

(** A function returns a value or lets an exception through. *)
Inductive outcome (A : Type) : Type :=
  | Returns (a : A)
  | Raises (msg : string).

Arguments Returns {A} a.
Arguments Raises {A} msg.

Definition newline_char : string := String (ascii_of_nat 10) EmptyString.

Section Installer.

Context {host : Type}.

(** [shutil.which], [print], [input] ([None] for [EOFError] and
    [KeyboardInterrupt]), [subprocess.check_call] with both output
    streams sent to [DEVNULL], [platform.system()], [sys.executable]. *)
Variable which : host -> string -> option string.
Variable print : string -> host -> host.
Variable input : string -> host -> option string * host.
Variable check_call : list string -> host -> call_outcome * host.
Variable platform_system : host -> string.
Variable executable : string.

Definition get_missing_formatters (h : host) : list string :=
  List.filter (fun f => negb (truthy_opt (which h f))) recommended.

(** The list [strategies] of [pip_install]. *)
Definition strategies (package : string) : list (list string) :=
  [ [executable; "-m"; "pip"; "install"; "--quiet"; package];
    [executable; "-m"; "pip"; "install"; "--quiet"; "--user"; package];
    [executable; "-m"; "pip"; "install"; "--quiet"; "--break-system-packages";
     package] ].

(** The loop of [pip_install] over the strategies still to be tried. *)
Fixpoint try_strategies (cmds : list (list string)) (h : host)
  : outcome bool * host :=
  match cmds with
  | [] => (Returns false, h)
  | cmd :: rest =>
      match check_call cmd h with
      | (CallReturned, h') => (Returns true, h')
      | (CalledProcessError _, h') => try_strategies rest h'
      | (CallRaised msg, h') => (Raises msg, h')
      end
  end.

Definition pip_install (package : string) (h : host) : outcome bool * host :=
  try_strategies (strategies package) h.

(** One [print] per line, in order. *)
Fixpoint print_all (lines : list string) (h : host) : host :=
  match lines with
  | [] => h
  | line :: rest => print_all rest (print line h)
  end.

(** [prompt_install_formatters] from [print("\n  Missing formatters:")]
    to [print("")]: the report of what is missing and how to install it. *)
Definition report_missing (missing : list string) (h : host) : host :=
  let h := print (newline_char +:+ "  Missing formatters:") h in
  let h :=
    print_all
      (map (fun fmt => "    - " +:+ fmt +:+ " (" +:+ info_text fmt "desc" +:+ ")")
           missing) h in
  let h := print (newline_char +:+ "  Install options:") h in
  let pip_fmts := List.filter (has_key "pip") missing in
  let h :=
    match pip_fmts with
    | [] => h
    | _ =>
        print ("    pip install "
               +:+ join " " (map (fun f => info_text f "pip") pip_fmts)) h
    end in
  let npm_fmts := List.filter (has_key "npm") missing in
  let h := print_all (map (fun f => "    " +:+ info_text f "npm") npm_fmts) h in
  let h :=
    if String.eqb (platform_system h) "Darwin" then
      let brew_fmts := List.filter (has_key "brew") missing in
      match brew_fmts with
      | [] => h
      | _ =>
          print ("    brew install "
                 +:+ join " " (map (fun f => info_text f "brew") brew_fmts)) h
      end
    else h in
  let h :=
    print_all
      (map (fun fmt => "    # " +:+ fmt +:+ ": " +:+ info_text fmt "note")
           (List.filter (has_key "note") missing)) h in
  print "" h.

(** The loop [for fmt in pip_fmts] after the second prompt. *)
Fixpoint install_with_pip (pip_fmts : list string) (h : host)
  : outcome unit * host :=
  match pip_fmts with
  | [] => (Returns tt, h)
  | fmt :: rest =>
      let pkg := info_text fmt "pip" in
      let h := print ("  Installing " +:+ pkg +:+ "...") h in
      match pip_install pkg h with
      | (Returns true, h) =>
          install_with_pip rest (print ("  " +:+ pkg +:+ " installed.") h)
      | (Returns false, h) =>
          install_with_pip rest
            (print ("  Failed to install " +:+ pkg +:+ ".") h)
      | (Raises msg, h) => (Raises msg, h)
      end
  end.

(** From [if pip_fmts:] to the end. *)
Definition ask_pip (pip_fmts : list string) (h : host) : outcome unit * host :=
  match pip_fmts with
  | [] => (Returns tt, h)
  | _ =>
      match input "  Install Python formatters (black)? [Y/n] " h with
      | (None, h) => (Returns tt, print "" h)
      | (Some line, h) =>
          if negb (String.eqb (lower (strip line)) "n")
          then install_with_pip pip_fmts h
          else (Returns tt, h)
      end
  end.

(** From [if npm_fmts and shutil.which("npm"):] to the end. *)
Definition ask_npm (npm_fmts pip_fmts : list string) (h : host)
  : outcome unit * host :=
  match npm_fmts with
  | [] => ask_pip pip_fmts h
  | _ =>
      if truthy_opt (which h "npm") then
        match input "  Install prettier via npm? [Y/n] " h with
        | (None, h) => (Returns tt, print "" h)
        | (Some line, h) =>
            if negb (String.eqb (lower (strip line)) "n") then
              let h := print "  Installing prettier globally..." h in
              match check_call ["npm"; "install"; "-g"; "prettier"] h with
              | (CallReturned, h) =>
                  ask_pip pip_fmts (print "  prettier installed." h)
              | (CalledProcessError _, h) =>
                  ask_pip pip_fmts
                    (print "  Failed to install prettier. Try: npm install -g prettier" h)
              | (CallRaised msg, h) => (Raises msg, h)
              end
            else ask_pip pip_fmts h
        end
      else ask_pip pip_fmts h
  end.

Definition prompt_install_formatters (h : host) : outcome unit * host :=
  match get_missing_formatters h with
  | [] => (Returns tt, h)
  | missing =>
      let h := report_missing missing h in
      ask_npm (List.filter (has_key "npm") missing)
              (List.filter (has_key "pip") missing) h
  end.

End Installer.

(** ** A console that records what happens *)

Module Console.

Inductive event : Type :=
  | Printed (line : string)
  | Asked (prompt : string)
  | Called (cmd : list string).

(** What has happened so far, and the lines still to be typed ([None]
    for the end of input or an interrupt). *)
Record world : Type := World {
  log : list event;
  answers : list (option string)
}.

Definition print (line : string) (w : world) : world :=
  {| log := log w ++ [Printed line]; answers := answers w |}.

Definition input (prompt : string) (w : world) : option string * world :=
  match answers w with
  | [] => (None, {| log := log w ++ [Asked prompt]; answers := [] |})
  | a :: rest => (a, {| log := log w ++ [Asked prompt]; answers := rest |})
  end.

(** [results] tells how each command ends. *)
Definition check_call (results : list string -> call_outcome)
    (cmd : list string) (w : world) : call_outcome * world :=
  (results cmd, {| log := log w ++ [Called cmd]; answers := answers w |}).

(** The commands among the events. *)
Definition calls (events : list event) : list (list string) :=
  omap (fun e => match e with Called cmd => Some cmd | _ => None end) events.

Definition prompts (events : list event) : list string :=
  omap (fun e => match e with Asked p => Some p | _ => None end) events.

(** A typed line that is [n] once stripped and lowered, or no line. *)
Definition declines (a : option string) : Prop :=
  match a with
  | None => True
  | Some line => lower (strip line) = "n"
  end.

End Console.

(** The command and the two prompts of [prompt_install_formatters]. *)
Definition npm_command : list string := ["npm"; "install"; "-g"; "prettier"].
Definition npm_prompt : string := "  Install prettier via npm? [Y/n] ".
Definition pip_prompt : string := "  Install Python formatters (black)? [Y/n] ".

(** [w'] is [w] after the events [new]; the lines typed meanwhile are
    taken from the front of the answers. *)
Definition follows (w w' : Console.world) (new : list Console.event) : Prop :=
  Console.log w' = Console.log w ++ new
  /\ exists used, Console.answers w = used ++ Console.answers w'.

(** ** Further sample hosts *)

Module Hosts.

(** [black] is installed; [ruff] is when the host says so. *)
Definition ruff_optional (ruff : bool) (cmd : string) : option string :=
  if String.eqb cmd "black" then Some "/usr/bin/black"
  else if String.eqb cmd "ruff" && ruff then Some "/usr/bin/ruff"
  else None.

(** Exactly the programs of [names] are installed. *)
Definition installed (names : list string) (cmd : string) : option string :=
  if existsb (String.eqb cmd) names then Some ("/usr/bin/" +:+ cmd) else None.

End Hosts.

(** * Properties *)

(** ** Text built-ins *)

Lemma truthy_true (s : string) : truthy s = true <-> s <> EmptyString.
Proof. destruct s; simpl; split; congruence. Qed.

Lemma truthy_false (s : string) : truthy s = false <-> s = EmptyString.
Proof. destruct s; simpl; split; congruence. Qed.

Lemma truthy_append_r (a b : string) : truthy b = true -> truthy (a +:+ b) = true.
Proof. destruct a; simpl; auto. Qed.

(** What [lstrip] returns starts with no whitespace. *)
Lemma lstrip_idempotent_upto (n : nat) (s : string) :
  (String.length s <= n)%nat -> lstrip (lstrip s) = lstrip s.
Proof.
  revert s; induction n as [|n IH]; intros s Hn.
  - destruct s; [reflexivity | simpl in Hn; lia].
  - destruct s as [|c1 r1]; [reflexivity|].
    simpl in Hn.
    destruct (space_1byte c1) eqn:E1.
    { simpl; rewrite E1. apply IH; lia. }
    destruct r1 as [|c2 r2].
    { simpl; rewrite E1. simpl; rewrite E1. reflexivity. }
    simpl in Hn.
    destruct (space_2bytes c1 c2) eqn:E2.
    { simpl; rewrite E1, E2. apply IH; lia. }
    destruct r2 as [|c3 r3].
    { simpl; rewrite E1, E2. simpl; rewrite E1, E2. reflexivity. }
    simpl in Hn.
    destruct (space_3bytes c1 c2 c3) eqn:E3.
    { simpl; rewrite E1, E2, E3. apply IH; lia. }
    simpl; rewrite E1, E2, E3. simpl; rewrite E1, E2, E3. reflexivity.
Qed.

Lemma lstrip_idempotent (s : string) : lstrip (lstrip s) = lstrip s.
Proof. apply (lstrip_idempotent_upto (String.length s)). lia. Qed.

(** [rstrip] leaves something exactly when [lstrip] does. *)
Lemma rstrip_truthy (s : string) : truthy (rstrip s) = truthy (lstrip s).
Proof.
  destruct s as [|c r]; [reflexivity|].
  change (rstrip (String c r))
    with (match lstrip (String c r) with
          | EmptyString => EmptyString
          | String _ _ => String c (rstrip r)
          end).
  destruct (lstrip (String c r)); reflexivity.
Qed.

(** A text that starts with no whitespace is left alone by [lstrip]. *)
Lemma lstrip_fixed (s : string) :
  match s with
  | EmptyString => True
  | String c1 r1 =>
      space_1byte c1 = false
      /\ match r1 with
         | EmptyString => True
         | String c2 r2 =>
             space_2bytes c1 c2 = false
             /\ match r2 with
                | EmptyString => True
                | String c3 _ => space_3bytes c1 c2 c3 = false
                end
         end
  end ->
  lstrip s = s.
Proof.
  destruct s as [|c1 [|c2 [|c3 r3]]]; simpl; try reflexivity.
  - intros [-> _]; reflexivity.
  - intros [-> [-> _]]; reflexivity.
  - intros [-> [-> ->]]; reflexivity.
Qed.

(** [s.strip()] is non-empty exactly when [s] has a character that is
    not whitespace. *)
Lemma strip_truthy (s : string) : truthy (strip s) = has_nonspace s.
Proof.
  unfold strip, has_nonspace. rewrite rstrip_truthy, lstrip_idempotent.
  reflexivity.
Qed.

Lemma strip_truthy_self (s : string) : truthy (strip s) = true -> truthy s = true.
Proof. destruct s; [simpl; congruence | reflexivity]. Qed.

(** [strip] on characters beyond ASCII: an em space (U+2003, bytes
    E2 80 83) and a no-break space (U+00A0, bytes C2 A0) are removed; a
    letter whose UTF-8 form ends in the byte A0 ([a] with grave, U+00E0,
    bytes C3 A0) is kept. *)
Lemma strip_beyond_ascii :
  let em_space := String (ascii_of_N 226) (String (ascii_of_N 128)
                    (String (ascii_of_N 131) EmptyString)) in
  let nbsp := String (ascii_of_N 194) (String (ascii_of_N 160) EmptyString) in
  let a_grave := String (ascii_of_N 195) (String (ascii_of_N 160) EmptyString) in
  strip em_space = EmptyString
  /\ strip (nbsp +:+ "x = 1" +:+ em_space) = "x = 1"
  /\ strip (" " +:+ a_grave +:+ " ") = a_grave.
Proof. repeat split. Qed.

(** The one comparison the source makes on a lowered answer: it holds
    for [n] and [N] and for no other text. *)
Lemma lower_is_n (s : string) : lower s = "n" <-> s = "n" \/ s = "N".
Proof.
  split.
  - destruct s as [|c [|c' r]]; [discriminate | | discriminate].
    destruct c as [[] [] [] [] [] [] [] []]; vm_compute; intros H;
      first [discriminate H | left; reflexivity | right; reflexivity].
  - intros [-> | ->]; reflexivity.
Qed.

(** ** The registry *)

Lemma FORMATTERS_keys_distinct : NoDup (FORMATTERS.*1).
Proof. apply (bool_decide_unpack _). vm_compute. reflexivity. Qed.

Lemma FORMATTERS_no_empty_key : assoc FORMATTERS EmptyString = None.
Proof. reflexivity. Qed.

Lemma assoc_None_fst {V : Type} (d : list (string * V)) (k : string) :
  assoc d k = None <-> k ∉ d.*1.
Proof.
  induction d as [|[k' v'] d IH]; simpl.
  - split; [intros _; apply not_elem_of_nil | reflexivity].
  - rewrite not_elem_of_cons. destruct (String.eqb_spec k' k) as [->|Hne].
    + split; [discriminate | intros [H _]; congruence].
    + rewrite IH. split; [intros H; split; [congruence | exact H] | intros [_ H]; exact H].
Qed.

(** ** Resolution *)

Section Resolution.

Context {host : Type}.
Variable which : host -> string -> option string.

Lemma first_available_Some h formatters cmd args :
  first_available which h formatters = Some (cmd, args) <->
  exists before x after,
    formatters = before ++ (cmd, args, x) :: after
    /\ available which h (cmd, args, x)
    /\ Forall (fun c => ~ available which h c) before.
Proof.
  unfold available. induction formatters as [|[[c a] x] rest IH]; simpl.
  - split; [discriminate|]. intros (before & y & after & H & _).
    destruct before; discriminate.
  - destruct (truthy_opt (which h c)) eqn:E.
    + split.
      * intros [= -> ->]. exists [], x, rest. simpl. auto.
      * intros ([|b before] & y & after & Heq & Hav & Hbefore); simpl in *.
        -- congruence.
        -- injection Heq as <- _. apply Forall_cons in Hbefore as [Hb _].
           simpl in Hb. congruence.
    + rewrite IH. split.
      * intros (before & y & after & -> & Hav & Hbefore).
        exists ((c, a, x) :: before), y, after. simpl. repeat split; auto.
        constructor; simpl; [congruence | exact Hbefore].
      * intros ([|b before] & y & after & Heq & Hav & Hbefore); simpl in *.
        -- injection Heq as <- <- <-. congruence.
        -- injection Heq as <- ->. apply Forall_cons in Hbefore as [_ Hb].
           exists before, y, after. auto.
Qed.

Lemma first_available_None h formatters :
  first_available which h formatters = None <->
  Forall (fun c => ~ available which h c) formatters.
Proof.
  unfold available. induction formatters as [|[[c a] x] rest IH]; simpl.
  - split; auto.
  - destruct (truthy_opt (which h c)) eqn:E.
    + split; [discriminate|]. intros H. apply Forall_cons in H as [H _].
      simpl in H. congruence.
    + rewrite IH. split.
      * intros H. constructor; simpl; [congruence | exact H].
      * intros H. apply Forall_cons in H as [_ H]. exact H.
Qed.

Lemma first_available_depends_on_availability h1 h2 formatters :
  (forall cmd, truthy_opt (which h1 cmd) = truthy_opt (which h2 cmd)) ->
  first_available which h1 formatters = first_available which h2 formatters.
Proof.
  intros Hsame. induction formatters as [|[[c a] x] rest IH]; simpl; auto.
  rewrite Hsame, IH. reflexivity.
Qed.

(** C5: for every language, [find_formatter] is [None] when the
    registry has no entry for it; otherwise it returns the program and
    arguments of the first candidate, in declaration order, whose
    program is on the search path, and [None] when no candidate of the
    entry is; and two host states with the same availability of every
    program give the same answer. *)
Theorem find_formatter_first_in_declaration_order (h : host) (language : string) :
  (assoc FORMATTERS language = None -> find_formatter which h language = None)
  /\ (forall formatters, assoc FORMATTERS language = Some formatters ->
        (forall cmd args,
            find_formatter which h language = Some (cmd, args) <->
            exists before x after,
              formatters = before ++ (cmd, args, x) :: after
              /\ available which h (cmd, args, x)
              /\ Forall (fun c => ~ available which h c) before)
        /\ (find_formatter which h language = None <->
            Forall (fun c => ~ available which h c) formatters))
  /\ (forall h2,
        (forall cmd, truthy_opt (which h cmd) = truthy_opt (which h2 cmd)) ->
        find_formatter which h language = find_formatter which h2 language).
Proof.
  unfold find_formatter. repeat split.
  - intros ->. reflexivity.
  - rewrite H. apply first_available_Some.
  - rewrite H. apply first_available_Some.
  - rewrite H. apply first_available_None.
  - rewrite H. apply first_available_None.
  - intros h2 Hsame. destruct (assoc FORMATTERS language); [|reflexivity].
    apply first_available_depends_on_availability, Hsame.
Qed.

End Resolution.

(** ** Invocation *)

Section Invocation.

Context {host : Type}.
Variable which : host -> string -> option string.
Variable subprocess_run : invocation -> host -> run_outcome * host.

Local Abbreviation find := (find_formatter which).
Local Abbreviation format := (format_code which subprocess_run).

Lemma format_code_resolved code language options h cmd args :
  find h language = Some (cmd, args) ->
  format code language options h =
    (classify cmd code
       (subprocess_run (run_call (build_command cmd args options) code) h).1,
     (subprocess_run (run_call (build_command cmd args options) code) h).2).
Proof.
  intros H. unfold format_code. rewrite H.
  destruct (subprocess_run _ h) as [r h']. reflexivity.
Qed.

Lemma format_code_unresolved code language options h :
  find h language = None ->
  format code language options h =
    ((false, code, Some ("No formatter found for " +:+ language)), h).
Proof. intros H. unfold format_code. rewrite H. reflexivity. Qed.

Lemma classify_failure cmd code r :
  (classify cmd code r).1.1 = false -> (classify cmd code r).1.2 = code.
Proof.
  destruct r as [rc out err| |msg]; simpl; auto.
  destruct (rc =? 0); simpl; [discriminate|].
  destruct (truthy out && truthy (strip out)); simpl; [discriminate | auto].
Qed.

Lemma find_formatter_language_truthy h language p :
  find h language = Some p -> truthy language = true.
Proof.
  destruct language; [|reflexivity].
  unfold find_formatter. rewrite FORMATTERS_no_empty_key. discriminate.
Qed.

(** C1, amended: when the formatter exits with a non-zero status and
    its standard output is non-empty after [strip()], [format_code]
    returns success with the whole standard output as the result. *)
Theorem format_code_lenient_on_visible_stdout
    code language options h h' cmd args rc out err :
  find h language = Some (cmd, args) ->
  subprocess_run (run_call (build_command cmd args options) code) h
    = (Completed rc out err, h') ->
  rc <> 0 ->
  strip out <> EmptyString ->
  format code language options h = ((true, out, None), h').
Proof.
  intros Hfind Hrun Hrc Hout.
  rewrite (format_code_resolved _ _ _ _ _ _ Hfind), Hrun. simpl.
  apply truthy_true in Hout. rewrite Hout, (strip_truthy_self _ Hout).
  destruct (rc =? 0); reflexivity.
Qed.

(** C2: when the formatter exits with a non-zero status and empty
    standard output, [format_code] fails with the original code as the
    result and, as the error, standard error when it is non-empty and
    otherwise the program name followed by [exited with code] and the
    exit status; the endpoint then answers with [success] false, that
    result and that error. *)
Theorem format_code_failure_detail
    code language options h h' cmd args rc err :
  find h language = Some (cmd, args) ->
  subprocess_run (run_call (build_command cmd args options) code) h
    = (Completed rc EmptyString err, h') ->
  rc <> 0 ->
  let detail :=
    if truthy err then err
    else cmd +:+ " exited with code " +:+ str_int rc in
  format code language options h = ((false, code, Some detail), h')
  /\ forall other,
      format_endpoint which subprocess_run
        {| body_code := Some code; body_language := Some language;
           body_options := Some options; body_other_keys := other |} h
      = ((200, <["error" := PStr detail]>
                 (<["result" := PStr code]> {["success" := PBool false]})),
         h').
Proof.
  intros Hfind Hrun Hrc detail.
  assert (Hfmt : format code language options h = ((false, code, Some detail), h')).
  { rewrite (format_code_resolved _ _ _ _ _ _ Hfind), Hrun. simpl.
    destruct (Z.eqb_spec rc 0); [contradiction | reflexivity]. }
  split; [exact Hfmt|]. intros other.
  unfold format_endpoint. simpl.
  rewrite (find_formatter_language_truthy _ _ _ Hfind). simpl.
  rewrite Hfmt.
  assert (Hd : truthy detail = true).
  { unfold detail. destruct (truthy err) eqn:E; [exact E|].
    apply truthy_append_r. reflexivity. }
  rewrite Hd. reflexivity.
Qed.

(** C3: whenever [format_code] reports failure the result is the input
    code itself; and each of the failure paths does report failure with
    that result: no registry entry, no candidate installed, a non-zero
    exit with empty standard output, a timeout, and an exception raised
    by the subprocess call. *)
Theorem format_code_failure_returns_code code language options h :
  ((format code language options h).1.1.1 = false ->
   (format code language options h).1.1.2 = code)
  /\ (assoc FORMATTERS language = None ->
      (format code language options h).1.1 = (false, code))
  /\ (forall formatters,
        assoc FORMATTERS language = Some formatters ->
        Forall (fun c => ~ available which h c) formatters ->
        (format code language options h).1.1 = (false, code))
  /\ (forall cmd args,
        find h language = Some (cmd, args) ->
        forall r,
          (subprocess_run (run_call (build_command cmd args options) code) h).1 = r ->
          (forall rc err, r = Completed rc EmptyString err -> rc <> 0 ->
             (format code language options h).1.1 = (false, code))
          /\ (r = TimeoutExpired ->
              (format code language options h).1.1 = (false, code))
          /\ (forall msg, r = Raised msg ->
              (format code language options h).1.1 = (false, code))).
Proof.
  split; [|split; [|split]].
  - destruct (find h language) as [[cmd args]|] eqn:Hfind.
    + rewrite (format_code_resolved _ _ _ _ _ _ Hfind). simpl.
      apply classify_failure.
    + rewrite (format_code_unresolved _ _ _ _ Hfind). reflexivity.
  - intros Hnone. rewrite format_code_unresolved; [reflexivity|].
    unfold find_formatter. rewrite Hnone. reflexivity.
  - intros formatters Hsome Hall. rewrite format_code_unresolved; [reflexivity|].
    unfold find_formatter. rewrite Hsome. apply first_available_None, Hall.
  - intros cmd args Hfind r Hrun.
    rewrite (format_code_resolved _ _ _ _ _ _ Hfind), Hrun.
    split; [|split].
    + intros rc err -> Hrc. simpl.
      destruct (Z.eqb_spec rc 0); [contradiction | reflexivity].
    + intros ->. reflexivity.
    + intros msg ->. reflexivity.
Qed.

(** C4: for a language with no entry in the registry, [format_code]
    returns failure, the original code, and the error
    [No formatter found for] followed by the language; and the request
    with code [x=1] and language [madeup] is answered with [success]
    false, result [x=1] and error [No formatter found for madeup]. *)
Theorem format_code_unknown_language code language options h :
  (assoc FORMATTERS language = None ->
   format code language options h =
     ((false, code, Some ("No formatter found for " +:+ language)), h))
  /\ format_endpoint which subprocess_run
       {| body_code := Some "x=1"; body_language := Some "madeup";
          body_options := None; body_other_keys := false |} h
     = ((200, <["error" := PStr "No formatter found for madeup"]>
                (<["result" := PStr "x=1"]> {["success" := PBool false]})),
        h).
Proof.
  split.
  - intros Hnone. apply format_code_unresolved.
    unfold find_formatter. rewrite Hnone. reflexivity.
  - reflexivity.
Qed.

End Invocation.

(** ** The timeout *)

Lemma wait_kill_popen (h : Subprocess.host) :
  let h' := Subprocess.wait (Subprocess.next_pid h)
              (Subprocess.kill (Subprocess.next_pid h) (Subprocess.popen h).2) in
  Subprocess.next_pid h' = Subprocess.next_pid h + 1
  /\ (Subprocess.next_pid h ∉ Subprocess.running h')
  /\ (Subprocess.next_pid h ∉ Subprocess.ended h')
  /\ (forall p, p ∈ Subprocess.running h' -> p ∈ Subprocess.running h)
  /\ (forall p, p ∈ Subprocess.ended h' -> p ∈ Subprocess.ended h).
Proof.
  unfold Subprocess.kill, Subprocess.ends, Subprocess.popen. simpl.
  destruct (decide (Subprocess.next_pid h
                      ∈ Subprocess.next_pid h :: Subprocess.running h)) as [_|Hn];
    [|exfalso; apply Hn; left]. simpl.
  split; [reflexivity|]. split; [|split; [|split]].
  - rewrite list_elem_of_filter. intros [H _]. congruence.
  - rewrite list_elem_of_filter. intros [H _]. congruence.
  - intros p. rewrite list_elem_of_filter, elem_of_cons.
    intros [Hp [-> | H]]; [congruence | exact H].
  - intros p. rewrite list_elem_of_filter, elem_of_cons.
    intros [Hp [-> | H]]; [congruence | exact H].
Qed.

(** [run] raises [TimeoutExpired] on a program that outlasts the
    timeout, having killed the child and waited for it. *)
Lemma run_outlasted (program : invocation -> Subprocess.behaviour)
    (inv : invocation) (h : Subprocess.host) :
  Subprocess.outlasts (program inv) (timeout inv) ->
  Subprocess.run program inv h
  = (TimeoutExpired,
     Subprocess.wait (Subprocess.next_pid h)
       (Subprocess.kill (Subprocess.next_pid h) (Subprocess.popen h).2)).
Proof.
  unfold Subprocess.run. destruct (program inv) as [msg|seconds rc out err|]; simpl.
  - intros [].
  - intros Hlate.
    destruct (QArith_base.Qle_bool seconds (QArith_base.inject_Z (timeout inv)))
      eqn:E; [|reflexivity].
    apply QArith_base.Qle_bool_iff in E.
    exfalso. exact (QArith_base.Qlt_not_le _ _ Hlate E).
  - reflexivity.
Qed.

(** C6: when the formatter runs for longer than ten seconds, whether it
    would exit later or never, [format_code] returns exactly failure,
    the original code and the error [Formatter timed out], whatever the
    formatter has printed; and the child process that was started for
    the call, the one child the call starts, is neither running nor
    waiting to be collected when [format_code] returns: the worker has
    no child then that it did not have before. *)
Theorem format_code_timeout
    (which : Subprocess.host -> string -> option string)
    (program : invocation -> Subprocess.behaviour)
    code language options (h : Subprocess.host) cmd args :
  find_formatter which h language = Some (cmd, args) ->
  Subprocess.outlasts
    (program (run_call (build_command cmd args options) code)) 10 ->
  let r := format_code which (Subprocess.run program) code language options h in
  r.1 = (false, code, Some "Formatter timed out")
  /\ Subprocess.next_pid r.2 = Subprocess.next_pid h + 1
  /\ (Subprocess.next_pid h ∉ Subprocess.running r.2)
  /\ (Subprocess.next_pid h ∉ Subprocess.ended r.2)
  /\ (forall p, p ∈ Subprocess.running r.2 -> p ∈ Subprocess.running h)
  /\ (forall p, p ∈ Subprocess.ended r.2 -> p ∈ Subprocess.ended h).
Proof.
  intros Hfind Hlate r. subst r.
  rewrite (format_code_resolved _ _ _ _ _ _ _ _ Hfind).
  rewrite (run_outlasted program _ h Hlate). simpl.
  split; [reflexivity|]. apply wait_kill_popen.
Qed.

(** ** Decimal text *)

(** No whitespace character starts with a byte of a printable ASCII
    character. *)
Lemma lstrip_ascii (c : ascii) (r : string) :
  space_1byte c = false -> (N_of_ascii c < 128)%N ->
  lstrip (String c r) = String c r.
Proof.
  intros H1 Hn. apply lstrip_fixed. split; [exact H1|].
  assert (H2 : forall c2, space_2bytes c c2 = false).
  { intros c2. unfold space_2bytes.
    destruct (N.eqb_spec (N_of_ascii c) 194); [lia | reflexivity]. }
  assert (H3 : forall c2 c3, space_3bytes c c2 c3 = false).
  { intros c2 c3. unfold space_3bytes.
    destruct (N.eqb_spec (N_of_ascii c) 225); [lia|].
    destruct (N.eqb_spec (N_of_ascii c) 226); [lia|].
    destruct (N.eqb_spec (N_of_ascii c) 227); [lia | reflexivity]. }
  destruct r as [|c2 [|c3 r3]]; auto.
Qed.

Lemma rstrip_cons (c : ascii) (r : string) :
  lstrip (String c r) = String c r ->
  rstrip (String c r) = String c (rstrip r).
Proof.
  intros H.
  change (rstrip (String c r))
    with (match lstrip (String c r) with
          | EmptyString => EmptyString
          | String _ _ => String c (rstrip r)
          end).
  rewrite H. reflexivity.
Qed.

Lemma is_digit_ascii (c : ascii) :
  PyInt.is_digit c = true -> space_1byte c = false /\ (N_of_ascii c < 128)%N.
Proof.
  destruct c as [[] [] [] [] [] [] [] []]; vm_compute; intros H;
    first [discriminate H | split; reflexivity].
Qed.

Lemma is_digit_lstrip (c : ascii) (r : string) :
  PyInt.is_digit c = true -> lstrip (String c r) = String c r.
Proof.
  intros H. destruct (is_digit_ascii c H) as [H1 Hn].
  apply lstrip_ascii; assumption.
Qed.

Lemma string_of_uint_all_digits (d : Decimal.uint) :
  PyInt.all_digits (NilEmpty.string_of_uint d) = true.
Proof. induction d; simpl; auto. Qed.

Lemma string_of_uint_truthy (d : Decimal.uint) :
  d <> Decimal.Nil -> truthy (NilEmpty.string_of_uint d) = true.
Proof. destruct d; simpl; congruence. Qed.

(** [str(n)] is a non-empty run of digits, after a minus sign when [n]
    is negative. *)
Lemma str_int_shape (n : Z) :
  exists ds,
    PyInt.all_digits ds = true /\ truthy ds = true
    /\ PyInt.nat_literal ds = Some (Z.abs n)
    /\ str_int n = (if n <? 0 then String "-" ds else ds).
Proof.
  assert (Hlit : forall d, d <> Decimal.Nil ->
            PyInt.nat_literal (NilEmpty.string_of_uint d) = Some (Z.of_uint d)).
  { intros d Hd. unfold PyInt.nat_literal.
    assert (Hdig : forall s, PyInt.all_digits s = true ->
              PyInt.digits_of s true = Some s
              /\ (truthy s = true -> PyInt.digits_of s false = Some s)).
    { induction s as [|c r IH]; simpl; [split; [reflexivity | discriminate]|].
      intros H. apply andb_true_iff in H as [Hc Hr]. rewrite Hc.
      destruct (IH Hr) as [IH1 _]. rewrite IH1. auto. }
    destruct (Hdig _ (string_of_uint_all_digits d)) as [_ H].
    rewrite (H (string_of_uint_truthy d Hd)), NilEmpty.usu. reflexivity. }
  unfold str_int. destruct n as [|p|p]; simpl.
  - exists "0". repeat split; reflexivity.
  - exists (NilEmpty.string_of_uint (Pos.to_uint p)).
    pose proof (DecimalPos.Unsigned.to_uint_nonnil p) as Hnn.
    repeat split.
    + apply string_of_uint_all_digits.
    + apply string_of_uint_truthy, Hnn.
    + rewrite (Hlit _ Hnn). unfold Z.of_uint.
      rewrite DecimalPos.Unsigned.of_to. reflexivity.
    + unfold NilZero.string_of_uint. destruct (Pos.to_uint p); congruence.
  - exists (NilEmpty.string_of_uint (Pos.to_uint p)).
    pose proof (DecimalPos.Unsigned.to_uint_nonnil p) as Hnn.
    repeat split.
    + apply string_of_uint_all_digits.
    + apply string_of_uint_truthy, Hnn.
    + rewrite (Hlit _ Hnn). unfold Z.of_uint.
      rewrite DecimalPos.Unsigned.of_to. reflexivity.
    + unfold NilZero.string_of_uint. destruct (Pos.to_uint p); congruence.
Qed.

Lemma all_digits_rstrip (s : string) : PyInt.all_digits s = true -> rstrip s = s.
Proof.
  induction s as [|c r IH]; [reflexivity|].
  intros H. apply andb_true_iff in H as [Hc Hr].
  rewrite (rstrip_cons _ _ (is_digit_lstrip c r Hc)), (IH Hr). reflexivity.
Qed.

Lemma all_digits_strip (s : string) : PyInt.all_digits s = true -> strip s = s.
Proof.
  intros H. unfold strip.
  assert (Hl : lstrip s = s).
  { destruct s as [|c r]; [reflexivity|].
    apply andb_true_iff in H as [Hc _]. apply is_digit_lstrip, Hc. }
  rewrite Hl. apply all_digits_rstrip, H.
Qed.

Lemma all_digits_head (c : ascii) (r : string) :
  PyInt.all_digits (String c r) = true -> c <> "-"%char /\ c <> "+"%char.
Proof.
  simpl. intros H. apply andb_true_iff in H as [Hc _].
  split; intros ->; vm_compute in Hc; discriminate.
Qed.

(** [int(str(n)) == n]. *)
Lemma int_str_int (n : Z) : PyInt.int (str_int n) = Some n.
Proof.
  destruct (str_int_shape n) as (ds & Hdig & Hne & Hlit & Hstr).
  rewrite Hstr. unfold PyInt.int. destruct (Z.ltb_spec n 0) as [Hneg|Hpos].
  - assert (Hs : strip (String "-" ds) = String "-" ds).
    { assert (Hl : lstrip (String "-" ds) = String "-" ds).
      { apply lstrip_ascii; reflexivity. }
      unfold strip. rewrite Hl, (rstrip_cons _ _ Hl).
      rewrite (all_digits_rstrip _ Hdig). reflexivity. }
    rewrite Hs, Hlit. simpl. f_equal. lia.
  - rewrite (all_digits_strip _ Hdig).
    destruct ds as [|c r]; [discriminate|].
    destruct (all_digits_head _ _ Hdig) as [Hm Hp].
    assert (Hgo : match String c r with
                  | String "+" r0 => PyInt.nat_literal r0
                  | String "-" r0 => option_map Z.opp (PyInt.nat_literal r0)
                  | t => PyInt.nat_literal t
                  end = PyInt.nat_literal (String c r)).
    { destruct c as [[] [] [] [] [] [] [] []]; try reflexivity; congruence. }
    rewrite Hgo, Hlit. f_equal. lia.
Qed.

(** ** Indentation arguments *)

Lemma eq_str_true (v : pyval) (s : string) : eq_str v s = true <-> v = PStr s.
Proof.
  destruct v; simpl; try (split; [discriminate | congruence]).
  destruct (String.eqb_spec s0 s); split; congruence.
Qed.

Lemma str_int_not_flag (n : Z) (rest : string) :
  str_int n <> String "-" (String "-" rest).
Proof.
  destruct (str_int_shape n) as (ds & Hdig & Hne & _ & ->).
  destruct ds as [|c r]; [discriminate|].
  destruct (all_digits_head _ _ Hdig) as [Hm _].
  destruct (n <? 0); congruence.
Qed.

(** The test [indent_type == "tabs"] on the options as sent. *)
Lemma indent_type_tabs (options : gmap string pyval) :
  eq_str (dict_get options "indentType" (PStr "spaces")) "tabs" = true
  <-> options !! "indentType" = Some (PStr "tabs").
Proof.
  unfold dict_get. destruct (options !! "indentType") as [v|].
  - rewrite eq_str_true. split; congruence.
  - split; discriminate.
Qed.

Lemma indent_type_not_tabs (options : gmap string pyval) :
  options !! "indentType" <> Some (PStr "tabs") ->
  eq_str (dict_get options "indentType" (PStr "spaces")) "tabs" = false.
Proof.
  intros H. apply not_true_is_false. rewrite indent_type_tabs. exact H.
Qed.

Lemma indent_size_default (options : gmap string pyval) :
  dict_get options "indentSize" (PInt 2)
  = default (PInt 2) (options !! "indentSize").
Proof. unfold dict_get. destruct (options !! "indentSize"); reflexivity. Qed.

Lemma integer_width_not_flag (options : gmap string pyval) (rest : string) :
  (forall v, options !! "indentSize" = Some v -> exists n, v = PInt n) ->
  str (default (PInt 2) (options !! "indentSize")) <> String "-" (String "-" rest).
Proof.
  intros Hsize. destruct (options !! "indentSize") as [v|] eqn:E; simpl.
  - destruct (Hsize v eq_refl) as [n ->]. apply str_int_not_flag.
  - apply str_int_not_flag.
Qed.

Lemma indent_type_tabs_or_not (options : gmap string pyval) :
  options !! "indentType" = Some (PStr "tabs")
  \/ options !! "indentType" <> Some (PStr "tabs").
Proof.
  destruct (eq_str (dict_get options "indentType" (PStr "spaces")) "tabs") eqn:E.
  - left. apply indent_type_tabs, E.
  - right. intros H. apply indent_type_tabs in H. congruence.
Qed.

Lemma suffix_last1 {A : Type} (y b : A) (l : list A) :
  [y] `suffix_of` l ++ [b] -> y = b.
Proof. intros H. exact (suffix_snoc_inv_1 y b [] l H). Qed.

Lemma suffix_last2 {A : Type} (x y a b : A) (l : list A) :
  [x; y] `suffix_of` l ++ [a; b] -> x = a /\ y = b.
Proof.
  intros H.
  replace (l ++ [a; b]) with ((l ++ [a]) ++ [b]) in H
    by (rewrite <- app_assoc; reflexivity).
  change [x; y] with ([x] ++ [y]) in H.
  split.
  - apply suffix_snoc_inv_2 in H. exact (suffix_last1 x a l H).
  - exact (suffix_snoc_inv_1 y b _ _ H).
Qed.

(** C7: the command [format_code] builds, by program. A program with no
    indentation branch, [black], [ruff] and [gofmt] among them, is run
    as its name and template and nothing more, whatever the options, so
    with no width flag under style tabs. [prettier], [biome] and
    [rustfmt] are run with name, template and width flag, followed by
    their tab toggle when [indentType] is [tabs] and by nothing when it
    is anything else or absent. So, for an integer width, the command of
    each of the three ends in the toggle exactly when the style is
    [tabs]; and [--use-tabs], when the template has none, is among
    [prettier]'s arguments exactly then. *)
Theorem indent_arguments_by_capability :
  (forall cmd args options,
      cmd ∉ ["prettier"; "biome"; "shfmt"; "clang-format"; "rustfmt"] ->
      build_command cmd args options = cmd :: args)
  /\ (forall cmd args options,
        cmd ∈ ["black"; "ruff"; "gofmt"; "sqlfluff"; "sql-formatter";
               "google-java-format"] ->
        build_command cmd args options = cmd :: args)
  /\ (forall args options,
        let width := str (default (PInt 2) (options !! "indentSize")) in
        (options !! "indentType" = Some (PStr "tabs") ->
         build_command "prettier" args options
           = "prettier" :: args ++ ["--tab-width"; width; "--use-tabs"]
         /\ build_command "biome" args options
            = "biome" :: args ++ ["--indent-width"; width; "--indent-style"; "tab"]
         /\ build_command "rustfmt" args options
            = "rustfmt" :: args
                ++ ["--config"; "tab_spaces=" +:+ width;
                    "--config"; "hard_tabs=true"])
        /\ (options !! "indentType" <> Some (PStr "tabs") ->
            build_command "prettier" args options
              = "prettier" :: args ++ ["--tab-width"; width]
            /\ build_command "biome" args options
               = "biome" :: args ++ ["--indent-width"; width]
            /\ build_command "rustfmt" args options
               = "rustfmt" :: args ++ ["--config"; "tab_spaces=" +:+ width]))
  /\ (forall cmd toggle args options,
        (cmd, toggle) ∈ [("prettier", ["--use-tabs"]);
                         ("biome", ["--indent-style"; "tab"]);
                         ("rustfmt", ["--config"; "hard_tabs=true"])] ->
        (forall v, options !! "indentSize" = Some v -> exists n, v = PInt n) ->
        toggle `suffix_of` build_command cmd args options
        <-> options !! "indentType" = Some (PStr "tabs"))
  /\ (forall args options,
        "--use-tabs" ∉ args ->
        (forall v, options !! "indentSize" = Some v -> exists n, v = PInt n) ->
        "--use-tabs" ∈ build_command "prettier" args options
        <-> options !! "indentType" = Some (PStr "tabs")).
Proof.
  assert (Hplain : forall cmd args options,
            cmd ∉ ["prettier"; "biome"; "shfmt"; "clang-format"; "rustfmt"] ->
            build_command cmd args options = cmd :: args).
  { intros cmd args options H. unfold build_command, indent_args.
    rewrite !not_elem_of_cons in H.
    destruct H as (H1 & H2 & H3 & H4 & H5 & _).
    apply String.eqb_neq in H1, H2, H3, H4, H5.
    rewrite H1, H2, H3, H4, H5. apply app_nil_r. }
  assert (Htabs : forall args options,
            options !! "indentType" = Some (PStr "tabs") ->
            build_command "prettier" args options
              = "prettier" :: args
                  ++ ["--tab-width"; str (default (PInt 2) (options !! "indentSize"));
                      "--use-tabs"]
            /\ build_command "biome" args options
               = "biome" :: args
                   ++ ["--indent-width";
                       str (default (PInt 2) (options !! "indentSize"));
                       "--indent-style"; "tab"]
            /\ build_command "rustfmt" args options
               = "rustfmt" :: args
                   ++ ["--config";
                       "tab_spaces=" +:+ str (default (PInt 2) (options !! "indentSize"));
                       "--config"; "hard_tabs=true"]).
  { intros args options H. apply indent_type_tabs in H.
    unfold build_command, indent_args. rewrite H, indent_size_default.
    split; [|split]; reflexivity. }
  assert (Hspaces : forall args options,
            options !! "indentType" <> Some (PStr "tabs") ->
            build_command "prettier" args options
              = "prettier" :: args
                  ++ ["--tab-width"; str (default (PInt 2) (options !! "indentSize"))]
            /\ build_command "biome" args options
               = "biome" :: args
                   ++ ["--indent-width";
                       str (default (PInt 2) (options !! "indentSize"))]
            /\ build_command "rustfmt" args options
               = "rustfmt" :: args
                   ++ ["--config";
                       "tab_spaces=" +:+ str (default (PInt 2) (options !! "indentSize"))]).
  { intros args options H. apply indent_type_not_tabs in H.
    unfold build_command, indent_args. rewrite H, indent_size_default.
    split; [|split]; reflexivity. }
  split; [exact Hplain|]. split; [|split; [|split]].
  - intros cmd args options H. apply Hplain.
    rewrite !elem_of_cons, elem_of_nil in H. rewrite !not_elem_of_cons.
    destruct H as [-> | [-> | [-> | [-> | [-> | [-> | []]]]]]];
      repeat split; (discriminate || apply not_elem_of_nil).
  - intros args options width. split; [apply Htabs | apply Hspaces].
  - intros cmd toggle args options Hin Hsize.
    pose proof (integer_width_not_flag options "use-tabs" Hsize) as Hwidth.
    destruct (indent_type_tabs_or_not options) as [Ht|Hs].
    + destruct (Htabs args options Ht) as (Hp & Hb & Hr).
      split; [intros _; exact Ht|]. intros _.
      rewrite !elem_of_cons, elem_of_nil in Hin.
      destruct Hin as [[= -> ->] | [[= -> ->] | [[= -> ->] | []]]].
      * rewrite Hp. exists ("prettier" :: args ++ ["--tab-width";
                  str (default (PInt 2) (options !! "indentSize"))]).
        simpl. rewrite <- app_assoc. reflexivity.
      * rewrite Hb. exists ("biome" :: args ++ ["--indent-width";
                  str (default (PInt 2) (options !! "indentSize"))]).
        simpl. rewrite <- app_assoc. reflexivity.
      * rewrite Hr. exists ("rustfmt" :: args ++ ["--config";
                  "tab_spaces=" +:+ str (default (PInt 2) (options !! "indentSize"))]).
        simpl. rewrite <- app_assoc. reflexivity.
    + destruct (Hspaces args options Hs) as (Hp & Hb & Hr).
      split; [|intros Ht; contradiction]. intros Hsuf. exfalso.
      rewrite !elem_of_cons, elem_of_nil in Hin.
      destruct Hin as [[= -> ->] | [[= -> ->] | [[= -> ->] | []]]].
      * rewrite Hp in Hsuf.
        replace (args ++ ["--tab-width";
                   str (default (PInt 2) (options !! "indentSize"))])
          with ((args ++ ["--tab-width"])
                  ++ [str (default (PInt 2) (options !! "indentSize"))]) in Hsuf
          by (rewrite <- app_assoc; reflexivity).
        apply (suffix_last1 _ _ ("prettier" :: args ++ ["--tab-width"])) in Hsuf.
        congruence.
      * rewrite Hb in Hsuf.
        apply (suffix_last2 _ _ _ _ ("biome" :: args)) in Hsuf.
        destruct Hsuf as [Hsuf _]. discriminate Hsuf.
      * rewrite Hr in Hsuf.
        apply (suffix_last2 _ _ _ _ ("rustfmt" :: args)) in Hsuf.
        destruct Hsuf as [_ Hsuf]. discriminate Hsuf.
  - intros args options Hargs Hsize.
    pose proof (integer_width_not_flag options "use-tabs" Hsize) as Hwidth.
    destruct (indent_type_tabs_or_not options) as [Ht|Hs].
    + destruct (Htabs args options Ht) as (Hp & _).
      split; [intros _; exact Ht|]. intros _. rewrite Hp.
      right. apply elem_of_app. right. do 2 right. left.
    + destruct (Hspaces args options Hs) as (Hp & _).
      split; [|intros Ht; contradiction]. rewrite Hp.
      rewrite elem_of_cons, elem_of_app, !elem_of_cons, elem_of_nil.
      intros [H | [H | [H | [H | []]]]]; try discriminate; try contradiction.
      congruence.
Qed.

(** ** The listing of available formatters *)

Section Listing.

Context {host : Type}.
Variable which : host -> string -> option string.

Lemma record_first_lookup h lang formatters (m : gmap string string) l :
  record_first which h lang formatters m !! l =
    if decide (l = lang) then
      match first_available which h formatters with
      | Some p => Some p.1
      | None => m !! l
      end
    else m !! l.
Proof.
  induction formatters as [|[[c a] x] rest IH]; simpl.
  - destruct (decide (l = lang)); reflexivity.
  - destruct (truthy_opt (which h c)); [|exact IH].
    destruct (decide (l = lang)) as [->|Hne].
    + apply lookup_insert_eq.
    + apply lookup_insert_ne. congruence.
Qed.

Lemma collect_available_lookup h items (m : gmap string string) l :
  NoDup (items.*1) ->
  collect_available which h items m !! l =
    match assoc items l with
    | Some formatters =>
        match first_available which h formatters with
        | Some p => Some p.1
        | None => m !! l
        end
    | None => m !! l
    end.
Proof.
  revert m. induction items as [|[lang formatters] rest IH]; intros m Hnd; simpl.
  - reflexivity.
  - simpl in Hnd. apply NoDup_cons in Hnd as [Hfresh Hnd].
    rewrite (IH _ Hnd), record_first_lookup.
    destruct (String.eqb_spec lang l) as [->|Hne].
    + apply assoc_None_fst in Hfresh. rewrite Hfresh.
      destruct (decide (l = l)); [reflexivity | contradiction].
    + destruct (decide (l = lang)) as [->|_]; [contradiction | reflexivity].
Qed.

(** C8: for every language, the mapping of [get_available_formatters]
    holds the language exactly when [find_formatter] resolves a candidate
    for it on the same host, and holds for it the program name of that
    candidate. *)
Theorem get_available_formatters_agrees_with_find_formatter h language :
  get_available_formatters which h !! language
    = fst <$> find_formatter which h language
  /\ (language ∈ dom (get_available_formatters which h)
      <-> is_Some (find_formatter which h language))
  /\ (forall cmd args,
        find_formatter which h language = Some (cmd, args) ->
        get_available_formatters which h !! language = Some cmd).
Proof.
  assert (Heq : get_available_formatters which h !! language
                = fst <$> find_formatter which h language).
  { unfold get_available_formatters, find_formatter.
    rewrite (collect_available_lookup _ _ _ _ FORMATTERS_keys_distinct).
    destruct (assoc FORMATTERS language) as [formatters|]; [|apply lookup_empty].
    destruct (first_available which h formatters); [reflexivity | apply lookup_empty]. }
  split; [exact Heq|]. split.
  - rewrite elem_of_dom, Heq. apply fmap_is_Some.
  - intros cmd args H. rewrite Heq, H. reflexivity.
Qed.

End Listing.

(** ** The timeout of the subprocess call *)

(** C10: the invocation [format_code] makes has timeout 10 whatever the
    code, language and options; [format_code] is that invocation followed
    by the classification of its outcome; and two [subprocess.run] that
    agree on every call made with timeout 10 give [format_code] the same
    result on every request. *)
Theorem subprocess_timeout_is_ten {host : Type}
    (which : host -> string -> option string)
    (subprocess_run : invocation -> host -> run_outcome * host) :
  (forall h code language options inv,
      format_invocation which h code language options = Some inv ->
      timeout inv = 10)
  /\ (forall h code language options cmd args,
        find_formatter which h language = Some (cmd, args) ->
        exists inv,
          format_invocation which h code language options = Some inv
          /\ format_code which subprocess_run code language options h
             = (classify cmd code (subprocess_run inv h).1, (subprocess_run inv h).2))
  /\ (forall run2 : invocation -> host -> run_outcome * host,
        (forall inv k, timeout inv = 10 -> subprocess_run inv k = run2 inv k) ->
        forall code language options h,
          format_code which subprocess_run code language options h
          = format_code which run2 code language options h).
Proof.
  repeat split.
  - intros h code language options inv. unfold format_invocation.
    destruct (find_formatter which h language) as [[cmd args]|]; [|discriminate].
    intros [= <-]. reflexivity.
  - intros h code language options cmd args Hfind.
    exists (run_call (build_command cmd args options) code). split.
    + unfold format_invocation. rewrite Hfind. reflexivity.
    + apply format_code_resolved, Hfind.
  - intros run2 Hagree code language options h. unfold format_code.
    destruct (find_formatter which h language) as [[cmd args]|]; [|reflexivity].
    rewrite Hagree; reflexivity.
Qed.

(** ** The launch sequence *)

Import Launch.

Lemma take_all (n : nat) (s : string) :
  (String.length s <= n)%nat -> take n s = s /\ drop n s = EmptyString.
Proof.
  revert n. induction s as [|c r IH]; intros [|n] H; simpl in *; auto; try lia.
  destruct (IH n) as [-> ->]; [lia | auto].
Qed.

Lemma str_int_truthy (n : Z) : truthy (str_int n) = true.
Proof.
  destruct (str_int_shape n) as (ds & _ & Hne & _ & ->).
  destruct (n <? 0); [reflexivity | exact Hne].
Qed.

Lemma str_int_strip (n : Z) : 0 <= n -> strip (str_int n) = str_int n.
Proof.
  intros Hn. destruct (str_int_shape n) as (ds & Hdig & _ & _ & ->).
  destruct (Z.ltb_spec n 0); [lia|]. apply all_digits_strip, Hdig.
Qed.

Lemma string_of_uint_length (d : Decimal.uint) :
  String.length (NilEmpty.string_of_uint d) = Decimal.nb_digits d.
Proof. induction d; simpl; auto. Qed.

Lemma double_nb_digits (d : Decimal.uint) :
  (Decimal.nb_digits (Decimal.Little.double d) <= S (Decimal.nb_digits d))%nat
  /\ (Decimal.nb_digits (Decimal.Little.succ_double d) <= S (Decimal.nb_digits d))%nat.
Proof. induction d; simpl; lia. Qed.

Lemma to_little_uint_nb_digits (p : positive) :
  (Decimal.nb_digits (Pos.to_little_uint p) <= Pos.size_nat p)%nat.
Proof.
  induction p as [p IH|p IH|]; simpl.
  - pose proof (double_nb_digits (Pos.to_little_uint p)). lia.
  - pose proof (double_nb_digits (Pos.to_little_uint p)). lia.
  - lia.
Qed.

Lemma size_nat_pow (p : positive) : 2 ^ Z.of_nat (Pos.size_nat p) <= 2 * Z.pos p.
Proof.
  induction p as [p IH|p IH|]; simpl Pos.size_nat.
  - rewrite Nat2Z.inj_succ, Z.pow_succ_r by lia. lia.
  - rewrite Nat2Z.inj_succ, Z.pow_succ_r by lia. lia.
  - simpl. lia.
Qed.

(** The text of a positive 32-bit process identifier fits one read. *)
Lemma str_int_fits_read (n : Z) :
  0 < n < 2 ^ 31 -> (String.length (str_int n) <= 32)%nat.
Proof.
  intros [Hpos Hlt]. destruct n as [|p|p]; try lia.
  unfold str_int. simpl.
  assert (Hnn := DecimalPos.Unsigned.to_uint_nonnil p).
  assert (Hstr : NilZero.string_of_uint (Pos.to_uint p)
                 = NilEmpty.string_of_uint (Pos.to_uint p)).
  { unfold NilZero.string_of_uint. destruct (Pos.to_uint p); congruence. }
  rewrite Hstr, string_of_uint_length. unfold Pos.to_uint.
  rewrite DecimalFacts.nb_digits_rev.
  pose proof (to_little_uint_nb_digits p) as Hd.
  pose proof (size_nat_pow p) as Hs.
  destruct (le_lt_dec (Pos.size_nat p) 32%nat) as [Hle|Hgt]; [lia|].
  assert (2 ^ 33 <= 2 ^ Z.of_nat (Pos.size_nat p))
    by (apply Z.pow_le_mono_r; lia).
  lia.
Qed.

Section LaunchFacts.

Variables rpid spid : Z.
Hypothesis rpid_positive : 0 < rpid.
Hypothesis spid_positive : 0 < spid.
Hypothesis spid_bound : spid < 2 ^ 31.

Lemma spid_fits : (String.length (str_int spid) <= 32)%nat.
Proof. apply str_int_fits_read. lia. Qed.

Local Abbreviation step := (Launch.step rpid spid).
Local Abbreviation exec := (Launch.exec rpid spid).
Local Abbreviation consistent := (Launch.consistent rpid spid).
Local Abbreviation handed_over := (Launch.handed_over spid).

Lemma consistent_initial : consistent initial.
Proof.
  constructor; simpl; try reflexivity; auto; try lia; try discriminate.
Qed.

Lemma handed_over_initial : handed_over initial.
Proof. constructor; simpl; [discriminate | lia]. Qed.

Arguments take : simpl never.
Arguments drop : simpl never.
Arguments strip : simpl never.
Arguments PyInt.int : simpl never.

Ltac use_pipe_before_write :=
  intros;
  match goal with
  | H : _ -> ?b = EmptyString |- ?b = EmptyString => apply H; lia
  end.

Ltac use_real_pid_content :=
  let rp := fresh "rp" in
  intros rp [= <-];
  match goal with
  | H : forall rp, Some ?x = Some rp -> _ |- _ =>
      destruct (H x eq_refl) as (? & ? & ?)
  end;
  repeat split; auto; lia.

Ltac use_content :=
  let rp := fresh "rp" in
  let H := fresh "H" in
  intros rp H;
  match goal with
  | Hc : forall rp, real_pid_of ?l = Some rp -> _ |- _ =>
      destruct (Hc rp H) as (? & ? & ?)
  end;
  repeat split; auto; lia.

Ltac use_returned :=
  let rp := fresh "rp" in
  let h := fresh "h" in
  intros rp h [= <- <-];
  match goal with
  | H : truthy _ = _ |- _ => rewrite H; reflexivity
  end.

Ltac fin :=
  constructor; simpl in *; subst; simpl in *;
  try reflexivity; try assumption; try lia; try discriminate;
  try (intros; congruence); try use_pipe_before_write;
  try use_real_pid_content; try use_content; try use_returned;
  try (left; reflexivity); try (right; reflexivity).

Lemma consistent_step a k k' : consistent k -> step a k = Some k' -> consistent k'.
Proof.
  intros [] Hstep. destruct k as [lpc rpc spc bytes lr lw rr rw sr sw lead].
  simpl in *. destruct a; unfold Launch.step, launcher_step, relay_step,
    service_step, relay_dies in Hstep; simpl in Hstep.
  - destruct lpc; simpl in Hstep.
    + injection Hstep as <-. fin.
    + injection Hstep as <-. fin.
    + destruct (0 <? rpid); [|discriminate]. injection Hstep as <-. fin.
    + destruct (truthy bytes) eqn:Hbytes.
      * injection Hstep as <-.
        destruct pipe_content0 as [-> | ->]; [discriminate|].
        destruct (take_all 32 _ spid_fits) as [Htake Hdrop].
        rewrite Htake, Hdrop, str_int_strip by lia.
        pose proof (str_int_truthy spid) as Hne.
        fin. intros rp [= <-]. repeat split; auto.
        destruct (le_lt_dec (relay_stage rpc) 4%nat) as [Hle|Hgt]; [|lia].
        rewrite (pipe_before_write0 Hle) in Hne. discriminate.
      * unfold writers in Hstep. simpl in Hstep.
        destruct (lw || rw || sw) eqn:Hw; [discriminate|].
        injection Hstep as <-. apply truthy_false in Hbytes.
        change (strip EmptyString) with EmptyString.
        assert (Hstage : (6 <= relay_stage rpc)%nat).
        { destruct rpc; simpl in *; subst; simpl in *; try discriminate; lia. }
        fin. intros rp [= <-]. repeat split; auto. lia.
    + injection Hstep as <-. fin.
    + destruct rpc; try discriminate. injection Hstep as <-. fin.
    + destruct (real_pid_content0 real_pid eq_refl) as (Hpipe & Hstage & Hrp).
      destruct (truthy real_pid) eqn:Ht.
      * destruct Hrp as [-> | ->]; [discriminate|].
        rewrite int_str_int in Hstep. injection Hstep as <-. fin.
      * injection Hstep as <-. fin.
    + discriminate.
    + discriminate.
  - destruct rpc; simpl in Hstep; try discriminate.
    + injection Hstep as <-. fin.
    + injection Hstep as <-. fin.
    + injection Hstep as <-. fin.
    + destruct (0 <? spid); [|discriminate].
      unfold readers in Hstep. simpl in Hstep.
      destruct (lr || rr || sr) eqn:Hreaders; injection Hstep as <-.
      * rewrite (pipe_before_write0 ltac:(simpl; lia)).
        change (String.append EmptyString (str_int spid)) with (str_int spid).
        fin.
      * fin.
    + injection Hstep as <-. fin.
    + injection Hstep as <-. fin.
  - destruct spc; simpl in Hstep; try discriminate.
    + injection Hstep as <-. fin.
    + injection Hstep as <-. fin.
  - destruct rpc; simpl in Hstep; try discriminate; injection Hstep as <-; fin.
Qed.

Lemma handed_over_step a k k' :
  a <> RelayDies -> consistent k -> handed_over k -> step a k = Some k' ->
  handed_over k'.
Proof.
  intros Ha [] [] Hstep. destruct k as [lpc rpc spc bytes lr lw rr rw sr sw lead].
  simpl in *. destruct a; [| | |contradiction];
    unfold Launch.step, launcher_step, relay_step, service_step in Hstep;
    simpl in Hstep.
  - destruct lpc; simpl in *.
    + injection Hstep as <-. constructor; simpl; [discriminate | intros; lia].
    + injection Hstep as <-. constructor; simpl; [discriminate | intros; lia].
    + destruct (0 <? rpid); [|discriminate]. injection Hstep as <-.
      constructor; simpl; [discriminate | auto].
    + destruct (truthy bytes) eqn:Hbytes.
      * injection Hstep as <-.
        destruct pipe_content0 as [-> | ->]; [discriminate|].
        destruct (take_all 32 _ spid_fits) as [Htake Hdrop].
        rewrite Htake, Hdrop, str_int_strip by lia.
        constructor; simpl; [congruence | lia].
      * unfold writers in Hstep. simpl in Hstep.
        destruct (lw || rw || sw) eqn:Hw; [discriminate|].
        injection Hstep as <-. apply truthy_false in Hbytes.
        assert (Hstage : (6 <= relay_stage rpc)%nat).
        { destruct rpc; simpl in *; subst; simpl in *; try discriminate; lia. }
        pose proof (str_int_truthy spid) as Hne.
        rewrite <- pipe_holds_service0, Hbytes in Hne by lia. discriminate.
    + injection Hstep as <-. constructor; simpl in *; [auto | lia].
    + destruct rpc; try discriminate. injection Hstep as <-.
      constructor; simpl in *; [auto | lia].
    + destruct (truthy real_pid); [destruct (PyInt.int real_pid)|];
        injection Hstep as <-; constructor; simpl in *; auto; lia.
    + discriminate.
    + discriminate.
  - destruct rpc; simpl in *; try discriminate.
    1-3: injection Hstep as <-; constructor; simpl; [assumption | intros; lia].
    + destruct (0 <? spid); [|discriminate].
      unfold readers in Hstep. simpl in Hstep.
      assert (Hlr : lr = true).
      { destruct lpc; simpl in *; subst; try reflexivity; try lia;
          destruct (real_pid_content0 _ eq_refl) as (_ & ? & _); lia. }
      rewrite Hlr in Hstep. simpl in Hstep. injection Hstep as <-.
      rewrite (pipe_before_write0 ltac:(lia)).
      constructor; simpl; [assumption | reflexivity].
    + injection Hstep as <-. constructor; simpl; [assumption|].
      intros _ H. apply pipe_holds_service0; [lia | exact H].
    + injection Hstep as <-. constructor; simpl; [assumption|].
      intros _ H. apply pipe_holds_service0; [lia | exact H].
  - destruct spc; simpl in Hstep; try discriminate; injection Hstep as <-;
      constructor; simpl in *; auto.
Qed.

Lemma exec_consistent schedule k k' :
  consistent k -> exec schedule k = Some k' -> consistent k'.
Proof.
  revert k. induction schedule as [|a rest IH]; intros k Hk; simpl.
  - intros [= <-]. exact Hk.
  - destruct (step a k) as [k1|] eqn:Hstep; [|discriminate].
    apply IH. exact (consistent_step _ _ _ Hk Hstep).
Qed.

Lemma exec_handed_over schedule k k' :
  RelayDies ∉ schedule -> consistent k -> handed_over k ->
  exec schedule k = Some k' -> handed_over k'.
Proof.
  revert k. induction schedule as [|a rest IH]; intros k Hno Hk Hh; simpl.
  - intros [= <-]. exact Hh.
  - destruct (step a k) as [k1|] eqn:Hstep; [|discriminate].
    apply not_elem_of_cons in Hno as [Ha Hno].
    apply IH; [exact Hno | exact (consistent_step _ _ _ Hk Hstep) |].
    apply (handed_over_step a k); auto.
Qed.

Lemma exec_cons_Some a rest k k1 k' :
  step a k = Some k1 -> exec rest k1 = Some k' -> exec (a :: rest) k = Some k'.
Proof. intros H1 H2. simpl. rewrite H1. exact H2. Qed.

Lemma step_calls_left a k k' :
  consistent k -> step a k = Some k' -> (calls_left k' < calls_left k)%nat.
Proof.
  intros [] Hstep. destruct k as [lpc rpc spc bytes lr lw rr rw sr sw lead].
  unfold calls_left. simpl in *.
  destruct a; unfold Launch.step, launcher_step, relay_step, service_step,
    relay_dies, writers, readers in Hstep; simpl in Hstep.
  - destruct lpc; simpl in *;
      repeat match type of Hstep with
        | context [if ?b then _ else _] => destruct b
        | context [match ?x with _ => _ end] => destruct x
        end;
      try discriminate; injection Hstep as <-; simpl in *; lia.
  - destruct rpc; simpl in *;
      repeat match type of Hstep with
        | context [if ?b then _ else _] => destruct b
        end;
      try discriminate; injection Hstep as <-; simpl in *; lia.
  - destruct spc; simpl in *; try discriminate; injection Hstep as <-;
      simpl in *; lia.
  - destruct rpc; simpl in *; try discriminate; injection Hstep as <-;
      simpl in *; lia.
Qed.

Lemma can_move k :
  consistent k -> (launcher_stage (launcher k) < 7)%nat ->
  exists a k', a <> RelayDies /\ step a k = Some k'.
Proof.
  intros [] Hstage. destruct k as [lpc rpc spc bytes lr lw rr rw sr sw lead].
  simpl in *.
  assert (Hr : (0 <? rpid) = true) by (apply Z.ltb_lt; exact rpid_positive).
  assert (Hs : (0 <? spid) = true) by (apply Z.ltb_lt; exact spid_positive).
  assert (Hrelay : (1 <= relay_stage rpc <= 6)%nat ->
            exists k', Launch.relay_step spid
              (System lpc rpc spc bytes lr lw rr rw sr sw lead) = Some k').
  { intros Hrs. unfold relay_step. simpl.
    destruct rpc; simpl in Hrs; try lia; try (eexists; reflexivity).
    rewrite Hs. destruct (readers _); eexists; reflexivity. }
  destruct lpc; simpl in *; try lia.
  - exists Launcher. eexists. split; [discriminate | reflexivity].
  - exists Launcher. eexists. split; [discriminate | reflexivity].
  - exists Launcher. eexists. split; [discriminate|].
    unfold Launch.step, launcher_step. simpl. rewrite Hr. reflexivity.
  - destruct (truthy bytes) eqn:Hbytes.
    { exists Launcher. eexists. split; [discriminate|].
      unfold Launch.step, launcher_step. simpl. rewrite Hbytes. reflexivity. }
    destruct (lw || rw || sw) eqn:Hw.
    + subst lw. simpl in Hw. destruct rw eqn:Hrw.
      * destruct Hrelay as [k' Hk'].
        { destruct (Nat.leb_spec 1 (relay_stage rpc));
            destruct (Nat.leb_spec (relay_stage rpc) 5);
            simpl in relay_writes0; try discriminate; lia. }
        exists Relay, k'. split; [discriminate | exact Hk'].
      * simpl in Hw. subst sw. destruct spc; simpl in Hw; try discriminate.
        exists Service. eexists. split; [discriminate | reflexivity].
    + exists Launcher. eexists. split; [discriminate|].
      unfold Launch.step, launcher_step, writers. simpl.
      rewrite Hbytes, Hw. reflexivity.
  - exists Launcher. eexists. split; [discriminate | reflexivity].
  - destruct (Nat.eq_dec (relay_stage rpc) 7%nat) as [Hz|Hnz].
    + destruct rpc; simpl in Hz; try lia.
      exists Launcher. eexists. split; [discriminate | reflexivity].
    + destruct Hrelay as [k' Hk'].
      { destruct rpc; simpl in *; lia. }
      exists Relay, k'. split; [discriminate | exact Hk'].
  - exists Launcher. unfold Launch.step, launcher_step. simpl.
    destruct (truthy real_pid); [destruct (PyInt.int real_pid)|];
      eexists; (split; [discriminate | reflexivity]).
Qed.

Lemma launcher_can_return k :
  consistent k ->
  exists more k' rp handle,
    (RelayDies ∉ more) /\ exec more k = Some k'
    /\ launcher k' = L_returned rp handle.
Proof.
  remember (calls_left k) as n eqn:Hn. revert k Hn.
  induction n as [n IH] using lt_wf_ind. intros k -> Hk.
  destruct (le_lt_dec 7%nat (launcher_stage (launcher k))) as [Hdone|Hgo].
  - destruct (launcher k) as [| | | | | | |rp handle|rp] eqn:Hl;
      simpl in Hdone; try lia.
    + exists [], k, rp, handle. repeat split; auto. apply not_elem_of_nil.
    + destruct (never_raised _ _ _ Hk rp Hl).
  - destruct (can_move k Hk Hgo) as (a & k1 & Ha & Hstep).
    destruct (IH _ (step_calls_left _ _ _ Hk Hstep) k1 eq_refl
                (consistent_step _ _ _ Hk Hstep))
      as (more & k' & rp & handle & Hno & Hexec & Hret).
    exists (a :: more), k', rp, handle. repeat split; auto.
    + apply not_elem_of_cons. split; [congruence | exact Hno].
    + exact (exec_cons_Some _ _ _ _ _ Hstep Hexec).
Qed.

Lemma fallback_reachable :
  exists schedule k,
    exec schedule initial = Some k
    /\ launcher k = L_returned EmptyString rpid /\ relay k = R_reaped.
Proof.
  assert (Hr : (0 <? rpid) = true) by (apply Z.ltb_lt; exact rpid_positive).
  exists [Launcher; Launcher; Launcher; RelayDies;
          Launcher; Launcher; Launcher; Launcher].
  eexists. split; [|split].
  - unfold Launch.exec, Launch.step, launcher_step, relay_dies. simpl.
    rewrite Hr. simpl. reflexivity.
  - reflexivity.
  - reflexivity.
Qed.

(** C9: in the Unix launch sequence, with every interleaving of the
    launcher, the relay and the service, and with the relay allowed to die
    at any point: the launcher never fails on [int(real_pid)]; when it
    has returned, the relay has been reaped, and the handle is the
    service's process identifier when that was read from the pipe and the
    relay's own when the read returned no data; the handle is the
    service's whenever the relay did not die; from every reachable state
    the launcher can go on to return; and the fallback to the relay's
    identifier does occur. The identifiers are positive and the
    service's is below 2^31, so that its text fits the 32 bytes read. *)
Theorem launcher_returns_service_pid :
  (forall schedule k,
      exec schedule initial = Some k ->
      (forall rp, launcher k <> L_raised rp)
      /\ (forall rp handle,
            launcher k = L_returned rp handle ->
            relay k = R_reaped
            /\ (rp = str_int spid /\ handle = spid
                \/ rp = EmptyString /\ handle = rpid)
            /\ ((RelayDies ∉ schedule) -> handle = spid)))
  /\ (forall schedule k,
        exec schedule initial = Some k ->
        exists more k' rp handle,
          (RelayDies ∉ more) /\ exec more k = Some k'
          /\ launcher k' = L_returned rp handle)
  /\ (exists schedule k,
        exec schedule initial = Some k
        /\ launcher k = L_returned EmptyString rpid /\ relay k = R_reaped).
Proof.
  split; [|split].
  - intros schedule k Hexec.
    pose proof (exec_consistent _ _ _ consistent_initial Hexec) as Hk.
    split; [exact (never_raised _ _ _ Hk)|].
    intros rp handle Hret.
    pose proof (returned_handle _ _ _ Hk rp handle Hret) as Hhandle.
    destruct (real_pid_content _ _ _ Hk rp) as (_ & _ & Hrp).
    { rewrite Hret. reflexivity. }
    split; [|split].
    + pose proof (reaped_after_wait _ _ _ Hk) as [_ Hreaped].
      rewrite Hret in Hreaped. simpl in Hreaped.
      destruct (relay k); simpl in Hreaped; try reflexivity; lia.
    + destruct Hrp as [-> | ->].
      * right. auto.
      * left. rewrite str_int_truthy in Hhandle. auto.
    + intros Hno.
      pose proof (exec_handed_over _ _ _ Hno consistent_initial
                    handed_over_initial Hexec) as Hh.
      rewrite (real_pid_is_service _ _ Hh rp) in Hhandle
        by (rewrite Hret; reflexivity).
      rewrite str_int_truthy in Hhandle. exact Hhandle.
  - intros schedule k Hexec. apply launcher_can_return.
    exact (exec_consistent _ _ _ consistent_initial Hexec).
  - exact fallback_reachable.
Qed.

End LaunchFacts.

(** ** The theorems at sample hosts *)

(** C1 as worded fails: [black] exits 1 having printed a single newline;
    standard output is not empty, yet [format_code] reports failure. *)
Lemma lenient_on_nonempty_stdout_fails :
  format_code (Sample.only "black" "/usr/bin/black")
    (Sample.always (Completed 1 Sample.newline "")) "x=1" "python" ∅ []
  = ((false, "x=1", Some "black exited with code 1"), [])
  /\ ~ lenient_on_nonempty_stdout.
Proof.
  split; [reflexivity|]. intros H.
  specialize (H Sample.host (Sample.only "black" "/usr/bin/black")
                (Sample.always (Completed 1 Sample.newline ""))
                "x=1" "python" ∅ [] [] "black" ["-"] 1 Sample.newline ""
                eq_refl eq_refl).
  assert (Hrc : 1 <> 0) by lia.
  assert (Hout : Sample.newline <> EmptyString) by discriminate.
  specialize (H Hrc Hout). vm_compute in H. discriminate.
Qed.

Lemma format_code_lenient_on_visible_stdout_witness :
  (find_formatter (Sample.only "black" "/usr/bin/black") [] "python"
     = Some ("black", ["-"])
   /\ Sample.always (Completed 123 "x = 1" "warning")
        (run_call (build_command "black" ["-"] ∅) "x=1") []
      = (Completed 123 "x = 1" "warning", [])
   /\ 123 <> 0
   /\ strip "x = 1" <> EmptyString)
  /\ format_code (Sample.only "black" "/usr/bin/black")
       (Sample.always (Completed 123 "x = 1" "warning")) "x=1" "python" ∅ []
     = ((true, "x = 1", None), []).
Proof.
  split.
  - repeat split; try reflexivity; [lia | vm_compute; discriminate].
  - apply (format_code_lenient_on_visible_stdout
             (Sample.only "black" "/usr/bin/black")
             (Sample.always (Completed 123 "x = 1" "warning"))
             "x=1" "python" ∅ [] [] "black" ["-"] 123 "x = 1" "warning");
      try reflexivity; [lia | vm_compute; discriminate].
Defined.

Lemma format_code_failure_detail_witness :
  (find_formatter (Sample.only "black" "/usr/bin/black") [] "python"
     = Some ("black", ["-"])
   /\ Sample.always (Completed 1 "" "bad input")
        (run_call (build_command "black" ["-"] ∅) "y=2") []
      = (Completed 1 "" "bad input", [])
   /\ 1 <> 0)
  /\ format_code (Sample.only "black" "/usr/bin/black")
       (Sample.always (Completed 1 "" "bad input")) "y=2" "python" ∅ []
     = ((false, "y=2", Some "bad input"), [])
  /\ forall other,
      format_endpoint (Sample.only "black" "/usr/bin/black")
        (Sample.always (Completed 1 "" "bad input"))
        {| body_code := Some "y=2"; body_language := Some "python";
           body_options := Some ∅; body_other_keys := other |} []
      = ((200, <["error" := PStr "bad input"]>
                 (<["result" := PStr "y=2"]> {["success" := PBool false]})),
         []).
Proof.
  split.
  - repeat split; try reflexivity; lia.
  - apply (format_code_failure_detail
             (Sample.only "black" "/usr/bin/black")
             (Sample.always (Completed 1 "" "bad input"))
             "y=2" "python" ∅ [] [] "black" ["-"] 1 "bad input");
      try reflexivity; lia.
Defined.

Lemma format_code_failure_returns_code_witness :
  (format_code Sample.nothing (Sample.always TimeoutExpired)
     "x=1" "python" ∅ []).1.1.1 = false
  /\ (format_code Sample.nothing (Sample.always TimeoutExpired)
        "x=1" "python" ∅ []).1.1.2 = "x=1".
Proof.
  split; [reflexivity|].
  apply (format_code_failure_returns_code Sample.nothing
           (Sample.always TimeoutExpired) "x=1" "python" ∅ []).
  reflexivity.
Defined.

Lemma format_code_unknown_language_witness :
  assoc FORMATTERS "madeup" = None
  /\ format_code Sample.nothing (Sample.always TimeoutExpired)
       "x=1" "madeup" ∅ []
     = ((false, "x=1", Some "No formatter found for madeup"), []).
Proof.
  split; [reflexivity|].
  apply (format_code_unknown_language Sample.nothing
           (Sample.always TimeoutExpired) "x=1" "madeup" ∅ []).
  reflexivity.
Defined.

Lemma find_formatter_first_in_declaration_order_witness :
  assoc FORMATTERS "python"
    = Some [("ruff", ["format"; "-"], PNone); ("black", ["-"], PNone)]
  /\ find_formatter (Sample.only "black" "/usr/bin/black") [] "python"
     = Some ("black", ["-"]).
Proof.
  split; [reflexivity|].
  destruct (find_formatter_first_in_declaration_order
              (Sample.only "black" "/usr/bin/black") [] "python")
    as (_ & Hentry & _).
  destruct (Hentry _ eq_refl) as [Hfirst _].
  apply Hfirst.
  exists [("ruff", ["format"; "-"], PNone)], PNone, [].
  split; [reflexivity|]. split; [reflexivity|].
  constructor; [|constructor]. vm_compute. discriminate.
Defined.

Lemma format_code_timeout_witness :
  (find_formatter Subprocess.only_black (Subprocess.Host [77] [] 100) "python"
     = Some ("black", ["-"])
   /\ Subprocess.outlasts
        (Subprocess.all_slow (run_call (build_command "black" ["-"] ∅) "x=1")) 10)
  /\ (format_code Subprocess.only_black (Subprocess.run Subprocess.all_slow)
        "x=1" "python" ∅ (Subprocess.Host [77] [] 100)).1
     = (false, "x=1", Some "Formatter timed out")
  /\ 100 ∉ Subprocess.running
             (format_code Subprocess.only_black
                (Subprocess.run Subprocess.all_slow)
                "x=1" "python" ∅ (Subprocess.Host [77] [] 100)).2.
Proof.
  split; [split; reflexivity|].
  destruct (format_code_timeout Subprocess.only_black Subprocess.all_slow
              "x=1" "python" ∅ (Subprocess.Host [77] [] 100) "black" ["-"]
              eq_refl eq_refl) as (Hres & _ & Hrun & _).
  split; [exact Hres | exact Hrun].
Defined.

Lemma indent_arguments_by_capability_witness :
  (("gofmt" ∉ ["prettier"; "biome"; "shfmt"; "clang-format"; "rustfmt"])
   /\ lookup (M := gmap string pyval) "indentType"
        {["indentType" := PStr "tabs"]}
      = Some (PStr "tabs"))
  /\ build_command "gofmt" [] {["indentType" := PStr "tabs"]} = ["gofmt"]
  /\ build_command "biome" ["format"; "--stdin-file-path"; "file.js"]
       {["indentType" := PStr "tabs"]}
     = ["biome"; "format"; "--stdin-file-path"; "file.js";
        "--indent-width"; "2"; "--indent-style"; "tab"].
Proof.
  assert (Hgofmt : "gofmt" ∉ ["prettier"; "biome"; "shfmt"; "clang-format"; "rustfmt"]).
  { rewrite !not_elem_of_cons.
    repeat split; (discriminate || apply not_elem_of_nil). }
  destruct indent_arguments_by_capability as (Hnone & _ & Htoggle & _).
  split; [split; [exact Hgofmt | reflexivity]|]. split.
  - apply Hnone. exact Hgofmt.
  - destruct (Htoggle ["format"; "--stdin-file-path"; "file.js"]
                {["indentType" := PStr "tabs"]}) as [Htabs _].
    destruct (Htabs eq_refl) as (_ & Hbiome & _). exact Hbiome.
Defined.

Lemma get_available_formatters_agrees_with_find_formatter_witness :
  find_formatter (Sample.only "black" "/usr/bin/black") [] "python"
    = Some ("black", ["-"])
  /\ get_available_formatters (Sample.only "black" "/usr/bin/black") []
       !! "python" = Some "black".
Proof.
  split; [reflexivity|].
  destruct (get_available_formatters_agrees_with_find_formatter
              (Sample.only "black" "/usr/bin/black") [] "python")
    as (_ & _ & Hname).
  apply (Hname "black" ["-"]). reflexivity.
Defined.

Lemma subprocess_timeout_is_ten_witness :
  (forall inv k,
      timeout inv = 10 ->
      Sample.always (Completed 0 "x = 1" "") inv k
      = Sample.timed 10 (Completed 0 "x = 1" "") inv k)
  /\ format_code (Sample.only "black" "/usr/bin/black")
       (Sample.always (Completed 0 "x = 1" "")) "x=1" "python"
       {["timeout" := PInt 99]} []
     = format_code (Sample.only "black" "/usr/bin/black")
         (Sample.timed 10 (Completed 0 "x = 1" "")) "x=1" "python"
         {["timeout" := PInt 99]} [].
Proof.
  assert (Hagree : forall inv k,
             timeout inv = 10 ->
             Sample.always (Completed 0 "x = 1" "") inv k
             = Sample.timed 10 (Completed 0 "x = 1" "") inv k).
  { intros inv k H. unfold Sample.always, Sample.timed. rewrite H. reflexivity. }
  split; [exact Hagree|].
  destruct (subprocess_timeout_is_ten (Sample.only "black" "/usr/bin/black")
              (Sample.always (Completed 0 "x = 1" ""))) as (_ & _ & Hsame).
  apply Hsame. exact Hagree.
Defined.

Lemma launcher_returns_service_pid_witness :
  (0 < 4001 /\ 0 < 4002 /\ 4002 < 2 ^ 31)
  /\ Launch.exec 4001 4002
       [Launcher; Launcher; Launcher; Relay; Relay; Relay; Service; Relay;
        Launcher; Relay; Relay; Launcher; Launcher; Launcher]
       initial <> None
  /\ forall k rp handle,
      Launch.exec 4001 4002
        [Launcher; Launcher; Launcher; Relay; Relay; Relay; Service; Relay;
         Launcher; Relay; Relay; Launcher; Launcher; Launcher]
        initial = Some k ->
      launcher k = L_returned rp handle ->
      relay k = R_reaped /\ handle = 4002.
Proof.
  split; [repeat split; lia|].
  split; [vm_compute; discriminate|].
  intros k rp handle Hk Hret.
  destruct (launcher_returns_service_pid 4001 4002) as (Hsafe & _ & _);
    [lia | lia | lia |].
  destruct (Hsafe _ _ Hk) as [_ Hreturned].
  destruct (Hreturned rp handle Hret) as (Hreaped & _ & Hclean).
  split; [exact Hreaped|]. apply Hclean.
  rewrite !not_elem_of_cons. repeat split; try discriminate.
  apply not_elem_of_nil.
Defined.

(** * Further properties *)

(** ** What [format_code] runs and when it succeeds *)

Section InvocationMore.

Context {host : Type}.
Variable which : host -> string -> option string.
Variable subprocess_run : invocation -> host -> run_outcome * host.

Lemma classify_success cmd code r :
  (classify cmd code r).1.1 = true <->
  exists rc out err,
    r = Completed rc out err /\ (rc = 0 \/ has_nonspace out = true).
Proof.
  destruct r as [rc out err| |msg]; simpl.
  - destruct (Z.eqb_spec rc 0) as [->|Hrc]; simpl.
    + split; [|reflexivity]. intros _. exists 0, out, err. auto.
    + destruct (truthy out && truthy (strip out)) eqn:E; simpl.
      * split; [|reflexivity]. intros _. exists rc, out, err.
        apply andb_true_iff in E as [_ E]. rewrite strip_truthy in E. auto.
      * split; [discriminate|]. intros (rc' & out' & err' & [= <- <- <-] & [H|H]).
        -- contradiction.
        -- rewrite <- strip_truthy in H.
           rewrite H, (strip_truthy_self _ H) in E. discriminate.
  - split; [discriminate|]. intros (? & ? & ? & ? & _). discriminate.
  - split; [discriminate|]. intros (? & ? & ? & ? & _). discriminate.
Qed.

Lemma classify_success_result cmd code rc out err :
  (rc = 0 \/ has_nonspace out = true) ->
  classify cmd code (Completed rc out err) = (true, out, None).
Proof.
  intros H. simpl. destruct (Z.eqb_spec rc 0) as [->|Hrc]; [reflexivity|].
  destruct H as [H|H]; [contradiction|].
  rewrite <- strip_truthy in H. rewrite H, (strip_truthy_self _ H). reflexivity.
Qed.

(** X1: [format_code] reports success exactly when a candidate was
    resolved, its run completed, and the exit status was zero or standard
    output held a character that is not whitespace; the result is then
    the whole standard output, also when that is empty, and there is no
    error. *)
Theorem format_code_succeeds_iff code language options h :
  ((format_code which subprocess_run code language options h).1.1.1 = true <->
   exists cmd args rc out err,
     find_formatter which h language = Some (cmd, args)
     /\ (subprocess_run (run_call (build_command cmd args options) code) h).1
        = Completed rc out err
     /\ (rc = 0 \/ has_nonspace out = true))
  /\ (forall cmd args rc out err,
        find_formatter which h language = Some (cmd, args) ->
        (subprocess_run (run_call (build_command cmd args options) code) h).1
          = Completed rc out err ->
        rc = 0 \/ has_nonspace out = true ->
        (format_code which subprocess_run code language options h).1
          = (true, out, None)).
Proof.
  split.
  - destruct (find_formatter which h language) as [[cmd args]|] eqn:Hfind.
    + rewrite (format_code_resolved _ _ _ _ _ _ _ _ Hfind). simpl.
      rewrite classify_success. split.
      * intros (rc & out & err & Hr & Hok). exists cmd, args, rc, out, err. auto.
      * intros (cmd' & args' & rc & out & err & [= <- <-] & Hr & Hok).
        exists rc, out, err. auto.
    + rewrite (format_code_unresolved _ _ _ _ _ _ Hfind). simpl.
      split; [discriminate|]. intros (? & ? & ? & ? & ? & ? & _). discriminate.
  - intros cmd args rc out err Hfind Hrun Hok.
    rewrite (format_code_resolved _ _ _ _ _ _ _ _ Hfind). simpl.
    rewrite Hrun. apply classify_success_result, Hok.
Qed.

(** X2: whatever the request, [format_code] either runs nothing and
    answers that no formatter was found, or makes one call of
    [subprocess.run]: its program is a candidate the registry lists for
    the requested language and [shutil.which] found, followed by that
    candidate's own arguments and at most four indentation arguments; its
    input is the code, output is captured as text, and the timeout is 10. *)
Theorem format_code_runs_registry_candidate code language options h :
  (find_formatter which h language = None
   /\ format_code which subprocess_run code language options h
      = ((false, code, Some ("No formatter found for " +:+ language)), h))
  \/ (exists formatters cmd args x extra,
        assoc FORMATTERS language = Some formatters
        /\ (cmd, args, x) ∈ formatters
        /\ available which h (cmd, args, x)
        /\ (length extra <= 4)%nat
        /\ let inv := {| argv := cmd :: args ++ extra; input := code;
                         capture_output := true; text := true;
                         timeout := 10 |} in
           format_code which subprocess_run code language options h
           = (classify cmd code (subprocess_run inv h).1,
              (subprocess_run inv h).2)).
Proof.
  destruct (find_formatter which h language) as [[cmd args]|] eqn:Hfind.
  - right. unfold find_formatter in Hfind.
    destruct (assoc FORMATTERS language) as [formatters|] eqn:Hentry;
      [|discriminate].
    apply first_available_Some in Hfind
      as (before & x & after & -> & Hav & Hbefore).
    exists (before ++ (cmd, args, x) :: after), cmd, args, x.
    exists (indent_args cmd (dict_get options "indentType" (PStr "spaces"))
              (dict_get options "indentSize" (PInt 2))).
    split; [reflexivity|]. split.
    { apply elem_of_app. right. apply list_elem_of_here. }
    split; [exact Hav|]. split.
    { unfold indent_args.
      repeat match goal with
             | |- context [if ?b then _ else _] => destruct b
             end; simpl; lia. }
    simpl. unfold format_code, find_formatter. rewrite Hentry.
    assert (Hfa : first_available which h (before ++ (cmd, args, x) :: after)
                  = Some (cmd, args)).
    { apply first_available_Some. exists before, x, after. repeat split; auto. }
    rewrite Hfa. unfold build_command, run_call. simpl.
    destruct (subprocess_run _ h) as [r h']. reflexivity.
  - left. split; [reflexivity|]. apply format_code_unresolved, Hfind.
Qed.

Lemma format_code_success_no_error code language options h :
  (format_code which subprocess_run code language options h).1.1.1 = true ->
  (format_code which subprocess_run code language options h).1.2 = None.
Proof.
  unfold format_code.
  destruct (find_formatter which h language) as [[cmd args]|]; [|discriminate].
  destruct (subprocess_run _ h) as [r h']. simpl.
  destruct r as [rc out err| |msg]; simpl; try discriminate.
  destruct (rc =? 0); [reflexivity|].
  destruct (truthy out && truthy (strip out)); [reflexivity | discriminate].
Qed.

(** X4: a request whose body is a JSON object with text for [code] and
    [language], as far as it has them, a non-empty [language], and
    [options] absent or an object, is answered with status 200 and an
    object that always holds [success] and [result] as [format_code]
    returned them; it holds [error] exactly when [format_code] returned a
    non-empty error text, so never on success, and it holds no other key.
    Bodies of another shape are no values of [request_body]. *)
Theorem format_endpoint_response_shape data h :
  truthy (default "" (body_language data)) = true ->
  exists resp,
    let r := format_code which subprocess_run (default "" (body_code data))
               (default "" (body_language data))
               (default ∅ (body_options data)) h in
    format_endpoint which subprocess_run data h = ((200, resp), r.2)
    /\ resp !! "success" = Some (PBool r.1.1.1)
    /\ resp !! "result" = Some (PStr r.1.1.2)
    /\ resp !! "error"
       = match r.1.2 with
         | Some e => if truthy e then Some (PStr e) else None
         | None => None
         end
    /\ (r.1.1.1 = true -> resp !! "error" = None)
    /\ (forall key, is_Some (resp !! key) ->
          key = "success" \/ key = "result" \/ key = "error").
Proof.
  intros Hlang. unfold format_endpoint.
  assert (Hbody : body_empty data = false).
  { unfold body_empty. destruct (body_language data) as [l|]; simpl in *.
    - destruct (body_code data); reflexivity.
    - discriminate. }
  rewrite Hbody, Hlang. simpl.
  pose proof (format_code_success_no_error (default "" (body_code data))
                (default "" (body_language data))
                (default ∅ (body_options data)) h) as Hok.
  destruct (format_code which subprocess_run _ _ _ h)
    as [[[ok result] error] h']. simpl in *.
  eexists. split; [reflexivity|].
  assert (Hbase : forall key,
             is_Some ((<["result" := PStr result]>
                         ({["success" := PBool ok]} : gmap string pyval)) !! key) ->
             key = "success" \/ key = "result" \/ key = "error").
  { intros key [v Hv]. apply lookup_insert_Some in Hv as [[<- _]|[_ Hv]]; [auto|].
    apply lookup_singleton_Some in Hv as [<- _]. auto. }
  destruct error as [e|]; [destruct (truthy e)|];
    (split; [reflexivity|]); (split; [reflexivity|]); (split; [reflexivity|]);
    split; try exact Hbase; try (intros _; reflexivity).
  - intros H. specialize (Hok H). discriminate.
  - intros key [v Hv]. apply lookup_insert_Some in Hv as [[<- _]|[_ Hv]]; [auto|].
    apply Hbase. eauto.
Qed.


End InvocationMore.

(** ** Resolution as more programs are installed *)

Section ResolutionMore.

Context {host : Type}.
Variable which : host -> string -> option string.

Lemma first_available_position h formatters cmd args :
  first_available which h formatters = Some (cmd, args) ->
  exists (i : nat) x,
    formatters !! i = Some (cmd, args, x)
    /\ available which h (cmd, args, x)
    /\ forall (j : nat) c, (j < i)%nat -> formatters !! j = Some c ->
         ~ available which h c.
Proof.
  intros H. apply first_available_Some in H
    as (before & x & after & -> & Hav & Hbefore).
  exists (length before), x. split; [|split; [exact Hav|]].
  - rewrite lookup_app_r by lia. rewrite Nat.sub_diag. reflexivity.
  - intros j c Hj Hc. rewrite lookup_app_l in Hc by exact Hj.
    rewrite Forall_forall in Hbefore. apply Hbefore.
    eapply list_elem_of_lookup_2, Hc.
Qed.

(** X5: installing further programs never costs a language its
    formatter and never demotes it: when every program found on one host
    is found on a second one, a language resolved on the first is resolved
    on the second, to the same candidate or to one declared earlier in
    its registry entry. *)
Theorem find_formatter_monotone h1 h2 language cmd1 args1 :
  (forall cmd, truthy_opt (which h1 cmd) = true ->
               truthy_opt (which h2 cmd) = true) ->
  find_formatter which h1 language = Some (cmd1, args1) ->
  exists formatters cmd2 args2 (i1 i2 : nat) x1 x2,
    assoc FORMATTERS language = Some formatters
    /\ find_formatter which h2 language = Some (cmd2, args2)
    /\ formatters !! i1 = Some (cmd1, args1, x1)
    /\ formatters !! i2 = Some (cmd2, args2, x2)
    /\ (i2 <= i1)%nat.
Proof.
  intros Hmore H1. unfold find_formatter in *.
  destruct (assoc FORMATTERS language) as [formatters|]; [|discriminate].
  destruct (first_available_position _ _ _ _ H1) as (i1 & x1 & Hi1 & Hav1 & _).
  destruct (first_available which h2 formatters) as [[cmd2 args2]|] eqn:H2.
  - destruct (first_available_position _ _ _ _ H2)
      as (i2 & x2 & Hi2 & _ & Hfirst2).
    exists formatters, cmd2, args2, i1, i2, x1, x2.
    repeat split; auto.
    destruct (le_lt_dec i2 i1) as [Hle|Hlt]; [exact Hle|].
    destruct (Hfirst2 i1 _ Hlt Hi1). apply Hmore, Hav1.
  - apply first_available_None in H2. rewrite Forall_forall in H2.
    destruct (H2 (cmd1, args1, x1)).
    + eapply list_elem_of_lookup_2, Hi1.
    + apply Hmore, Hav1.
Qed.

(** X6: the mapping of [get_available_formatters] is empty exactly when
    no program named in the registry is found on the host, and its keys
    are always languages of the registry. *)
Theorem get_available_formatters_empty_iff h :
  (get_available_formatters which h = ∅ <->
   forall language formatters c,
     assoc FORMATTERS language = Some formatters ->
     c ∈ formatters -> ~ available which h c)
  /\ (forall language,
        is_Some (get_available_formatters which h !! language) ->
        language ∈ FORMATTERS.*1).
Proof.
  assert (Hlookup : forall language,
            get_available_formatters which h !! language
            = match assoc FORMATTERS language with
              | Some formatters =>
                  match first_available which h formatters with
                  | Some p => Some p.1
                  | None => None
                  end
              | None => None
              end).
  { intros language. unfold get_available_formatters.
    rewrite (collect_available_lookup _ _ _ _ _ FORMATTERS_keys_distinct).
    destruct (assoc FORMATTERS language) as [formatters|]; [|apply lookup_empty].
    destruct (first_available which h formatters); [reflexivity | apply lookup_empty]. }
  split; [split|].
  - intros Hempty language formatters c Hentry Hc.
    pose proof (Hlookup language) as Hl. rewrite Hempty, lookup_empty, Hentry in Hl.
    destruct (first_available which h formatters) eqn:Hfa; [discriminate|].
    apply first_available_None in Hfa. rewrite Forall_forall in Hfa.
    apply Hfa, Hc.
  - intros Hnone. apply map_empty. intros language. rewrite Hlookup.
    destruct (assoc FORMATTERS language) as [formatters|] eqn:Hentry; [|reflexivity].
    assert (Hfa : first_available which h formatters = None).
    { apply first_available_None, Forall_forall. intros c Hc.
      apply (Hnone language formatters c Hentry), Hc. }
    rewrite Hfa. reflexivity.
  - intros language [v Hv]. rewrite Hlookup in Hv.
    destruct (assoc FORMATTERS language) eqn:Hentry; [|discriminate].
    destruct (decide (language ∈ FORMATTERS.*1)) as [Hin|Hout]; [exact Hin|].
    apply assoc_None_fst in Hout. congruence.
Qed.

End ResolutionMore.

(** ** The launch sequence: descriptors, session, write and length *)

Section LaunchMore.

Variables rpid spid : Z.
Hypothesis rpid_positive : 0 < rpid.
Hypothesis spid_positive : 0 < spid.
Hypothesis spid_bound : spid < 2 ^ 31.

Lemma reachable_consistent schedule k :
  Launch.exec rpid spid schedule initial = Some k ->
  Launch.consistent rpid spid k.
Proof.
  intros H.
  eapply exec_consistent; [exact spid_positive | exact spid_bound | | exact H].
  apply consistent_initial.
Qed.

(** X7: once the launcher has returned, it and the relay hold neither
    end of the pipe and no byte is left in it; once the service is also
    inside [run_server], no process holds an end of the pipe at all. *)
Theorem launch_leaves_pipe_closed schedule k rp handle :
  Launch.exec rpid spid schedule initial = Some k ->
  launcher k = L_returned rp handle ->
  l_rd k = false /\ l_wr k = false /\ r_rd k = false /\ r_wr k = false
  /\ pipe k = EmptyString
  /\ (service k = S_serving -> readers k = false /\ writers k = false).
Proof.
  intros Hexec Hret. destruct (reachable_consistent _ _ Hexec)
    as [Hlr Hlw Hrr Hrw Hsr Hsw Hraf Hsaf Hreap Hpbw Hpc Hrpc Hrh Hnr].
  rewrite Hret in *. simpl in *.
  destruct Hreap as [_ Hreaped].
  assert (Hstage : relay_stage (relay k) = 8%nat) by (apply Hreaped; lia).
  rewrite Hstage in *. simpl in *.
  destruct (Hrpc rp eq_refl) as (Hpipe & _ & _).
  repeat split; auto.
  - unfold readers. rewrite Hlr, Hrr, Hsr. reflexivity.
  - unfold writers. rewrite Hlw, Hrw, Hsw, H.
    reflexivity.
Qed.

(** X8: when the relay stands before its [os.write], some process still
    has the read end open, so the write cannot fail with a broken pipe:
    the relay's move puts exactly the text of the service's identifier
    into the empty pipe. *)
Theorem relay_write_succeeds schedule k :
  Launch.exec rpid spid schedule initial = Some k ->
  relay k = R_forked ->
  readers k = true
  /\ exists k',
      Launch.step rpid spid Relay k = Some k'
      /\ relay k' = R_written /\ pipe k' = str_int spid.
Proof.
  intros Hexec Hrelay. destruct (reachable_consistent _ _ Hexec)
    as [Hlr Hlw Hrr Hrw Hsr Hsw Hraf Hsaf Hreap Hpbw Hpc Hrpc Hrh Hnr].
  rewrite Hrelay in *. simpl in *.
  assert (Hread : l_rd k = true).
  { rewrite Hlr.
    destruct (launcher k) eqn:Hl; simpl in *; try reflexivity; try lia;
      destruct (Hrpc _ eq_refl) as (_ & ? & _); lia. }
  assert (Hreaders : readers k = true).
  { unfold readers. rewrite Hread. reflexivity. }
  split; [exact Hreaders|].
  unfold Launch.step, relay_step. rewrite Hrelay.
  assert (Hs : (0 <? spid) = true) by (apply Z.ltb_lt; exact spid_positive).
  rewrite Hs, Hreaders. eexists. split; [reflexivity|]. simpl.
  split; [reflexivity|]. rewrite Hpbw by lia. reflexivity.
Qed.

End LaunchMore.

(** X10: the second fork comes after [os.setsid()]: in every reachable
    state in which the service exists, the relay has made itself the
    leader of a new session. *)
Theorem service_runs_in_new_session rpid spid schedule k :
  Launch.exec rpid spid schedule initial = Some k ->
  service k <> S_absent -> relay_leads_session k = true.
Proof.
  set (inv := fun k : system =>
         ((3 <= relay_stage (relay k) <= 6)%nat -> relay_leads_session k = true)
         /\ (service k <> S_absent -> relay_leads_session k = true)).
  assert (Hstep : forall a k0 k1,
             inv k0 -> Launch.step rpid spid a k0 = Some k1 -> inv k1).
  { intros a k0 k1 [Hrelay Hservice] Hs.
    destruct k0 as [lpc rpc spc bytes lr lw rr rw sr sw lead].
    unfold inv in *. simpl in *.
    destruct a; unfold Launch.step, launcher_step, relay_step, service_step,
      relay_dies, writers, readers in Hs; simpl in Hs.
    - destruct lpc; simpl in Hs;
        repeat match type of Hs with
          | context [if ?b then _ else _] => destruct b
          | context [match ?x with _ => _ end] => destruct x
          end;
        try discriminate; injection Hs as <-; simpl in *;
        (split; [intros; try lia; auto | auto]).
    - destruct rpc; simpl in Hs;
        repeat match type of Hs with
          | context [if ?b then _ else _] => destruct b
          end;
        try discriminate; injection Hs as <-; simpl in *;
        (split; [intros; try lia; try reflexivity; apply Hrelay; lia
                | intros; try reflexivity; try (apply Hrelay; lia); auto]).
    - destruct spc; simpl in Hs; try discriminate; injection Hs as <-;
        simpl in *; (split; [auto | intros _; apply Hservice; discriminate]).
    - destruct rpc; simpl in Hs; try discriminate; injection Hs as <-;
        simpl in *; (split; [intros; lia | auto]). }
  assert (Hexec : forall sched k0 k1,
             inv k0 -> Launch.exec rpid spid sched k0 = Some k1 -> inv k1).
  { induction sched as [|a rest IH]; intros k0 k1 Hk0; simpl.
    - intros [= <-]. exact Hk0.
    - destruct (Launch.step rpid spid a k0) as [k2|] eqn:Hs; [|discriminate].
      apply IH. exact (Hstep _ _ _ Hk0 Hs). }
  intros Hreach. apply (Hexec schedule initial k); [|exact Hreach].
  split; simpl; [lia | congruence].
Qed.

(** ** Missing formatters *)

Section MissingMore.

Context {host : Type}.
Variable which : host -> string -> option string.

Lemma get_missing_formatters_nil h :
  get_missing_formatters which h = [] ->
  Forall (fun f => truthy_opt (which h f) = true) recommended.
Proof.
  unfold get_missing_formatters, recommended. simpl.
  repeat match goal with
         | |- context [negb (truthy_opt ?o)] => destruct (truthy_opt o) eqn:?
         end; simpl; try discriminate.
  intros _. repeat constructor; assumption.
Qed.

Lemma get_available_formatters_lookup h language :
  get_available_formatters which h !! language
  = match assoc FORMATTERS language with
    | Some formatters =>
        match first_available which h formatters with
        | Some p => Some p.1
        | None => None
        end
    | None => None
    end.
Proof.
  unfold get_available_formatters.
  rewrite (collect_available_lookup _ _ _ _ _ FORMATTERS_keys_distinct).
  destruct (assoc FORMATTERS language) as [formatters|]; [|apply lookup_empty].
  destruct (first_available which h formatters); [reflexivity | apply lookup_empty].
Qed.

(** X11: when [get_missing_formatters] reports nothing missing, every
    language of the registry other than [sql] and [java] has an entry in
    the mapping of [get_available_formatters]; those two do not when only
    the recommended programs are installed. *)
Theorem nothing_missing_covers_all_but_sql_and_java h :
  get_missing_formatters which h = [] ->
  (forall language,
      language ∈ FORMATTERS.*1 -> language <> "sql" -> language <> "java" ->
      is_Some (get_available_formatters which h !! language))
  /\ ((forall cmd, truthy_opt (which h cmd) = true -> cmd ∈ recommended) ->
      get_available_formatters which h !! "sql" = None
      /\ get_available_formatters which h !! "java" = None).
Proof.
  intros Hnone. apply get_missing_formatters_nil in Hnone.
  unfold recommended in Hnone.
  repeat match goal with
         | H : Forall _ (_ :: _) |- _ => apply Forall_cons in H as [? H]
         end.
  split.
  - intros language Hin Hsql Hjava. rewrite get_available_formatters_lookup.
    simpl in Hin.
    repeat (apply elem_of_cons in Hin as [->|Hin];
            [try contradiction; simpl;
             repeat match goal with
                    | H : truthy_opt _ = true |- _ => rewrite H
                    end; simpl;
             try (destruct (truthy_opt (which h "ruff")); simpl;
                  repeat match goal with
                         | H : truthy_opt _ = true |- _ => rewrite H
                         end);
             eauto|]).
    apply elem_of_nil in Hin. contradiction.
  - intros Honly. rewrite !get_available_formatters_lookup. simpl.
    assert (Hnot : forall cmd, cmd ∉ recommended ->
                     truthy_opt (which h cmd) = false).
    { intros cmd Hcmd. destruct (truthy_opt (which h cmd)) eqn:E; [|reflexivity].
      destruct (Hcmd (Honly cmd E)). }
    rewrite (Hnot "sqlfluff"), (Hnot "sql-formatter"), (Hnot "google-java-format");
      try (split; reflexivity).
    all: unfold recommended; rewrite !not_elem_of_cons; repeat split;
      try (intro; discriminate); apply not_elem_of_nil.
Qed.

End MissingMore.

(** ** [pip_install] and [prompt_install_formatters] at the console *)

Section ConsoleFacts.

Variable results : list string -> call_outcome.
Variable executable : string.

Local Abbreviation pip := (pip_install (Console.check_call results) executable).

Lemma calls_app (l1 l2 : list Console.event) :
  Console.calls (l1 ++ l2) = Console.calls l1 ++ Console.calls l2.
Proof. apply omap_app. Qed.

Lemma prompts_app (l1 l2 : list Console.event) :
  Console.prompts (l1 ++ l2) = Console.prompts l1 ++ Console.prompts l2.
Proof. apply omap_app. Qed.

Lemma calls_printed (lines : list string) :
  Console.calls (map Console.Printed lines) = [].
Proof. induction lines; simpl; auto. Qed.

Lemma prompts_printed (lines : list string) :
  Console.prompts (map Console.Printed lines) = [].
Proof. induction lines; simpl; auto. Qed.

Lemma prompts_called (cmds : list (list string)) :
  Console.prompts (map Console.Called cmds) = [].
Proof. induction cmds; simpl; auto. Qed.

Lemma calls_called (cmds : list (list string)) :
  Console.calls (map Console.Called cmds) = cmds.
Proof. induction cmds; simpl; [reflexivity | f_equal; assumption]. Qed.

(** X12: [pip_install] tries the plain install first, [--user] only
    after that failed and [--break-system-packages] only after both
    failed; it stops at the first command that does not raise
    [CalledProcessError], returns [True] when that command returned,
    [False] when all three failed, and lets any other exception through. *)
Theorem pip_install_escalates package w :
  exists (n : nat) last,
    (1 <= n <= 3)%nat
    /\ Console.log (pip package w).2
       = Console.log w
           ++ map Console.Called (firstn n (strategies executable package))
    /\ Console.answers (pip package w).2 = Console.answers w
    /\ (forall (i : nat) cmd,
          (S i < n)%nat -> strategies executable package !! i = Some cmd ->
          exists rc, results cmd = CalledProcessError rc)
    /\ strategies executable package !! (n - 1)%nat = Some last
    /\ match (pip package w).1 with
       | Returns true => results last = CallReturned
       | Returns false => n = 3%nat /\ exists rc, results last = CalledProcessError rc
       | Raises msg => results last = CallRaised msg
       end.
Proof.
  unfold pip_install, strategies. simpl.
  set (s1 := [executable; "-m"; "pip"; "install"; "--quiet"; package]).
  set (s2 := [executable; "-m"; "pip"; "install"; "--quiet"; "--user"; package]).
  set (s3 := [executable; "-m"; "pip"; "install"; "--quiet";
              "--break-system-packages"; package]).
  assert (Hprev : forall (n : nat) (cmds : list (list string)),
             (forall (i : nat) cmd, (i < n)%nat -> cmds !! i = Some cmd ->
                exists rc, results cmd = CalledProcessError rc) ->
             forall (i : nat) cmd, (S i < S n)%nat -> cmds !! i = Some cmd ->
                exists rc, results cmd = CalledProcessError rc).
  { intros n cmds H i cmd Hi. apply H. lia. }
  assert (Hdone : forall i : nat, (S i < 1)%nat -> False) by (intros; lia).
  destruct (results s1) as [|rc1|msg1] eqn:E1; simpl.
  - exists 1%nat, s1. repeat split; auto; try lia.
    all: try (intros i cmd Hi; destruct (Hdone _ Hi)).
  - destruct (results s2) as [|rc2|msg2] eqn:E2; simpl.
    + exists 2%nat, s2. rewrite <- app_assoc. repeat split; auto; try lia.
      all: try (intros [|i] cmd Hi; simpl; [intros [= <-]; eauto | lia]).
    + destruct (results s3) as [|rc3|msg3] eqn:E3; simpl;
        exists 3%nat, s3; rewrite <- !app_assoc; repeat split; eauto; try lia.
      all: try (intros [|[|i]] cmd Hi; simpl; try (intros [= <-]; eauto); lia).
    + exists 2%nat, s2. rewrite <- app_assoc. repeat split; auto; try lia.
      all: try (intros [|i] cmd Hi; simpl; [intros [= <-]; eauto | lia]).
  - exists 1%nat, s1. repeat split; auto; try lia.
    all: try (intros i cmd Hi; destruct (Hdone _ Hi)).
Qed.

End ConsoleFacts.

Section PromptFacts.

Variable installed : string -> option string.
Variable system_name : string.
Variable results : list string -> call_outcome.
Variable executable : string.

Local Abbreviation prompt_install :=
  (prompt_install_formatters (fun _ : Console.world => installed)
     Console.print Console.input (Console.check_call results)
     (fun _ => system_name) executable).
Local Abbreviation report :=
  (report_missing Console.print (fun _ : Console.world => system_name)).
Local Abbreviation pip_loop :=
  (install_with_pip Console.print (Console.check_call results) executable).
Local Abbreviation pip_question :=
  (ask_pip Console.print Console.input (Console.check_call results) executable).
Local Abbreviation npm_question :=
  (ask_npm (fun _ : Console.world => installed) Console.print Console.input
     (Console.check_call results) executable).

Lemma follows_refl w : follows w w [].
Proof. split; [symmetry; apply app_nil_r | exists []; reflexivity]. Qed.

Lemma follows_trans w1 w2 w3 new1 new2 :
  follows w1 w2 new1 -> follows w2 w3 new2 -> follows w1 w3 (new1 ++ new2).
Proof.
  intros [H1 [u1 Hu1]] [H2 [u2 Hu2]]. split.
  - rewrite H2, H1. symmetry. apply app_assoc.
  - exists (u1 ++ u2). rewrite Hu1, Hu2. apply app_assoc.
Qed.

Lemma follows_print line w :
  follows w (Console.print line w) [Console.Printed line].
Proof. split; [reflexivity | exists []; reflexivity]. Qed.

Lemma follows_print_all lines w :
  follows w (print_all Console.print lines w) (map Console.Printed lines).
Proof.
  revert w. induction lines as [|line rest IH]; intros w; simpl.
  - apply follows_refl.
  - exact (follows_trans _ _ _ [_] _ (follows_print line w) (IH _)).
Qed.

Lemma follows_declines w w' new :
  follows w w' new -> Forall Console.declines (Console.answers w) ->
  Forall Console.declines (Console.answers w').
Proof.
  intros [_ [used Hused]] H. rewrite Hused in H.
  apply Forall_app in H as [_ H]. exact H.
Qed.

Lemma report_prints missing w :
  exists lines, follows w (report missing w) (map Console.Printed lines).
Proof.
  unfold report_missing.
  set (w1 := Console.print _ w).
  set (w2 := print_all Console.print _ w1).
  set (w3 := Console.print _ w2).
  set (w4 := match List.filter (has_key "pip") missing with
             | [] => w3 | _ => _ end).
  set (w5 := print_all Console.print _ w4).
  set (w6 := if String.eqb system_name "Darwin" then _ else w5).
  set (w7 := print_all Console.print _ w6).
  assert (H1 := follows_print (newline_char +:+ "  Missing formatters:") w).
  fold w1 in H1.
  assert (H2 : exists l, follows w1 w2 (map Console.Printed l))
    by (eexists; apply follows_print_all).
  assert (H3 : follows w2 w3 (map Console.Printed [newline_char +:+ "  Install options:"]))
    by apply follows_print.
  assert (H4 : exists l, follows w3 w4 (map Console.Printed l)).
  { unfold w4. destruct (List.filter (has_key "pip") missing).
    - exists []. apply follows_refl.
    - eexists [_]. apply follows_print. }
  assert (H5 : exists l, follows w4 w5 (map Console.Printed l))
    by (eexists; apply follows_print_all).
  assert (H6 : exists l, follows w5 w6 (map Console.Printed l)).
  { unfold w6. destruct (String.eqb system_name "Darwin").
    - destruct (List.filter (has_key "brew") missing).
      + exists []. apply follows_refl.
      + eexists [_]. apply follows_print.
    - exists []. apply follows_refl. }
  assert (H7 : exists l, follows w6 w7 (map Console.Printed l))
    by (eexists; apply follows_print_all).
  assert (H8 := follows_print "" w7).
  destruct H2 as [l2 H2], H4 as [l4 H4], H5 as [l5 H5], H6 as [l6 H6],
    H7 as [l7 H7].
  exists ([newline_char +:+ "  Missing formatters:"] ++ l2
          ++ [newline_char +:+ "  Install options:"] ++ l4 ++ l5 ++ l6 ++ l7
          ++ [""]).
  rewrite !map_app.
  repeat (eapply follows_trans; [eassumption|]).
  exact H8.
Qed.

Lemma missing_filters w :
  let missing := get_missing_formatters (fun _ : Console.world => installed) w in
  List.filter (has_key "pip") missing
  = (if truthy_opt (installed "black") then [] else ["black"])
  /\ List.filter (has_key "npm") missing
     = (if truthy_opt (installed "prettier") then [] else ["prettier"]).
Proof.
  unfold get_missing_formatters, recommended. simpl.
  destruct (truthy_opt (installed "prettier")),
    (truthy_opt (installed "black")), (truthy_opt (installed "shfmt")),
    (truthy_opt (installed "gofmt")), (truthy_opt (installed "rustfmt")),
    (truthy_opt (installed "clang-format")); split; reflexivity.
Qed.

Lemma pip_install_follows package w :
  exists n : nat,
    follows w
      (pip_install (Console.check_call results) executable package w).2
      (map Console.Called (firstn n (strategies executable package))).
Proof.
  unfold pip_install, strategies. simpl.
  repeat match goal with
         | |- context [match results ?c with _ => _ end] =>
             destruct (results c); simpl
         end.
  all: first
    [ exists 1%nat; split; [reflexivity | exists []; reflexivity]
    | exists 2%nat; split; [simpl; rewrite <- app_assoc; reflexivity
                           | exists []; reflexivity]
    | exists 3%nat; split; [simpl; rewrite <- !app_assoc; reflexivity
                           | exists []; reflexivity] ].
Qed.

Lemma take_elem_of {A} (n : nat) (l : list A) x : x ∈ firstn n l -> x ∈ l.
Proof.
  intros H. apply list_elem_of_lookup in H as [i Hi].
  apply lookup_take_Some in Hi as [Hi _]. eapply list_elem_of_lookup_2, Hi.
Qed.

Lemma pip_loop_black w :
  exists new,
    follows w (pip_loop ["black"] w).2 new
    /\ Console.prompts new = []
    /\ Forall (fun cmd => cmd ∈ strategies executable "black")
         (Console.calls new).
Proof.
  simpl. change (info_text "black" "pip") with "black".
  set (w1 := Console.print _ w).
  destruct (pip_install_follows "black" w1) as [n Hn].
  assert (H1 : follows w w1 [Console.Printed ("  Installing " +:+ "black" +:+ "...")])
    by apply follows_print.
  assert (Hcalls : Forall (fun cmd => cmd ∈ strategies executable "black")
                     (firstn n (strategies executable "black"))).
  { apply Forall_forall. intros cmd. apply take_elem_of. }
  destruct (pip_install (Console.check_call results) executable "black" w1)
    as [[[|]|msg] w2]; simpl in *.
  - eexists. split.
    + eapply follows_trans; [exact H1|].
      eapply follows_trans; [exact Hn | apply follows_print].
    + rewrite !prompts_app, !calls_app, prompts_called, calls_called.
      simpl. rewrite app_nil_r. split; [reflexivity | exact Hcalls].
  - eexists. split.
    + eapply follows_trans; [exact H1|].
      eapply follows_trans; [exact Hn | apply follows_print].
    + rewrite !prompts_app, !calls_app, prompts_called, calls_called.
      simpl. rewrite app_nil_r. split; [reflexivity | exact Hcalls].
  - eexists. split.
    + eapply follows_trans; [exact H1 | exact Hn].
    + rewrite !prompts_app, !calls_app, prompts_called, calls_called.
      simpl. split; [reflexivity | exact Hcalls].
Qed.

Lemma follows_input prompt w :
  follows w (Console.input prompt w).2 [Console.Asked prompt]
  /\ (Forall Console.declines (Console.answers w) ->
      Console.declines (Console.input prompt w).1).
Proof.
  unfold Console.input. destruct (Console.answers w) as [|a rest] eqn:E; simpl.
  - split; [split; [reflexivity | exists []; rewrite E; reflexivity]|].
    intros _. exact I.
  - split; [split; [reflexivity | exists [a]; rewrite E; reflexivity]|].
    intros H. apply Forall_cons in H as [H _]. exact H.
Qed.

Lemma npm_command_not_pip package : npm_command ∉ strategies executable package.
Proof.
  unfold strategies, npm_command. rewrite !not_elem_of_cons.
  repeat split; try (intro; discriminate). apply not_elem_of_nil.
Qed.

(** What the second question and what follows it can do. *)
Lemma pip_question_trace pip_fmts w :
  pip_fmts = [] \/ pip_fmts = ["black"] ->
  exists new,
    follows w (pip_question pip_fmts w).2 new
    /\ Forall (fun cmd => cmd ∈ strategies executable "black")
         (Console.calls new)
    /\ (Console.calls new <> [] -> pip_fmts = ["black"])
    /\ (Forall Console.declines (Console.answers w) -> Console.calls new = [])
    /\ exists asked : bool,
        Console.prompts new = (if asked then [pip_prompt] else [])
        /\ (asked = true -> pip_fmts = ["black"]).
Proof.
  intros [-> | ->].
  - exists []. simpl. split; [apply follows_refl|].
    split; [constructor|]. split; [intros H; destruct H; reflexivity|].
    split; [reflexivity|]. exists false. split; [reflexivity | discriminate].
  - unfold ask_pip.
    destruct (follows_input pip_prompt w) as [Hin Hdecl].
    fold pip_prompt.
    destruct (Console.input pip_prompt w) as [[line|] w1] eqn:E; simpl in *.
    + destruct (String.eqb_spec (lower (strip line)) "n") as [Hn|Hn]; simpl.
      * exists [Console.Asked pip_prompt]. split; [exact Hin|]. simpl.
        split; [constructor|]. split; [intros H; destruct H; reflexivity|].
        split; [reflexivity|]. exists true. auto.
      * destruct (pip_loop_black w1) as (new & Hnew & Hprompts & Hcalls).
        exists ([Console.Asked pip_prompt] ++ new).
        split; [exact (follows_trans _ _ _ _ _ Hin Hnew)|].
        rewrite calls_app, prompts_app, Hprompts. simpl.
        split; [exact Hcalls|]. split; [reflexivity|].
        split; [intros H; destruct (Hn (Hdecl H))|]. exists true. auto.
    + exists ([Console.Asked pip_prompt] ++ [Console.Printed ""]).
      split; [exact (follows_trans _ _ _ _ _ Hin (follows_print "" w1))|].
      simpl.
      split; [constructor|]. split; [intros H; destruct H; reflexivity|].
      split; [reflexivity|]. exists true. auto.
Qed.

(** What the first question and what follows it can do. *)
Lemma npm_question_trace npm_fmts pip_fmts w :
  npm_fmts = [] \/ npm_fmts = ["prettier"] ->
  pip_fmts = [] \/ pip_fmts = ["black"] ->
  exists new,
    follows w (npm_question npm_fmts pip_fmts w).2 new
    /\ (exists npm_calls pip_calls,
          Console.calls new = npm_calls ++ pip_calls
          /\ (npm_calls = []
              \/ (npm_calls = [npm_command] /\ npm_fmts = ["prettier"]
                  /\ truthy_opt (installed "npm") = true))
          /\ Forall (fun cmd => cmd ∈ strategies executable "black") pip_calls
          /\ (pip_calls <> [] -> pip_fmts = ["black"]))
    /\ (Forall Console.declines (Console.answers w) -> Console.calls new = [])
    /\ exists asked : bool,
        Console.prompts new
        = (if match npm_fmts with
              | [] => false
              | _ => truthy_opt (installed "npm")
              end
           then [npm_prompt] else [])
          ++ (if asked then [pip_prompt] else [])
        /\ (asked = true -> pip_fmts = ["black"]).
Proof.
  intros Hnpm Hpip.
  assert (Hplain : forall w0 before,
             follows w w0 before -> Console.calls before = [] ->
             forall shown,
             Console.prompts before = shown ->
             exists new,
               follows w (pip_question pip_fmts w0).2 new
               /\ (exists npm_calls pip_calls,
                     Console.calls new = npm_calls ++ pip_calls
                     /\ (npm_calls = []
                         \/ (npm_calls = [npm_command] /\ npm_fmts = ["prettier"]
                             /\ truthy_opt (installed "npm") = true))
                     /\ Forall (fun cmd => cmd ∈ strategies executable "black")
                          pip_calls
                     /\ (pip_calls <> [] -> pip_fmts = ["black"]))
               /\ (Forall Console.declines (Console.answers w) ->
                   Console.calls new = [])
               /\ exists asked : bool,
                   Console.prompts new
                   = shown ++ (if asked then [pip_prompt] else [])
                   /\ (asked = true -> pip_fmts = ["black"])).
  { intros w0 before Hbefore Hcalls shown Hshown.
    destruct (pip_question_trace pip_fmts w0 Hpip)
      as (new & Hnew & Hall & Hsome & Hdecl & asked & Hasked & Hblack).
    exists (before ++ new). split; [exact (follows_trans _ _ _ _ _ Hbefore Hnew)|].
    rewrite calls_app, prompts_app, Hcalls, Hshown, Hasked. simpl.
    split.
    { exists [], (Console.calls new).
      split; [reflexivity|]. split; [left; reflexivity|].
      split; [exact Hall | exact Hsome]. }
    split; [|exists asked; auto].
    intros H. apply Hdecl. exact (follows_declines _ _ _ Hbefore H). }
  destruct Hnpm as [-> | ->].
  - apply (Hplain w []); [apply follows_refl | reflexivity | reflexivity].
  - unfold ask_npm. destruct (truthy_opt (installed "npm")) eqn:Hnpm.
    2: { apply (Hplain w []); [apply follows_refl | reflexivity | reflexivity]. }
    destruct (follows_input npm_prompt w) as [Hin Hdecl]. fold npm_prompt.
    destruct (Console.input npm_prompt w) as [[line|] w1] eqn:E; simpl in *.
    + destruct (String.eqb_spec (lower (strip line)) "n") as [Hn|Hn]; simpl.
      * exact (Hplain w1 [Console.Asked npm_prompt] Hin eq_refl
                 [npm_prompt] eq_refl).
      * set (w2 := Console.print "  Installing prettier globally..." w1).
        assert (H2 : follows w w2
                       ([Console.Asked npm_prompt]
                        ++ [Console.Printed "  Installing prettier globally..."])).
        { exact (follows_trans _ _ _ _ _ Hin (follows_print _ w1)). }
        unfold Console.check_call at 1.
        set (w3 := {| Console.log := Console.log w2 ++ [Console.Called npm_command];
                      Console.answers := Console.answers w2 |}).
        assert (H3 : follows w w3
                       (([Console.Asked npm_prompt]
                         ++ [Console.Printed "  Installing prettier globally..."])
                        ++ [Console.Called npm_command])).
        { eapply follows_trans; [exact H2|].
          split; [reflexivity | exists []; reflexivity]. }
        assert (Hafter : forall line0,
                   exists new,
                     follows w (pip_question pip_fmts
                                  (Console.print line0 w3)).2 new
                     /\ (exists npm_calls pip_calls,
                           Console.calls new = npm_calls ++ pip_calls
                           /\ (npm_calls = []
                               \/ (npm_calls = [npm_command]
                                   /\ ["prettier"] = ["prettier"]
                                   /\ true = true))
                           /\ Forall (fun cmd => cmd ∈ strategies executable "black")
                                pip_calls
                           /\ (pip_calls <> [] -> pip_fmts = ["black"]))
                     /\ (Forall Console.declines (Console.answers w) ->
                         Console.calls new = [])
                     /\ exists asked : bool,
                         Console.prompts new
                         = [npm_prompt] ++ (if asked then [pip_prompt] else [])
                         /\ (asked = true -> pip_fmts = ["black"])).
        { intros line0.
          destruct (pip_question_trace pip_fmts (Console.print line0 w3) Hpip)
            as (new & Hnew & Hall & Hsome & _ & asked & Hasked & Hblack).
          eexists. split.
          { eapply follows_trans; [exact H3|].
            eapply follows_trans; [apply follows_print | exact Hnew]. }
          rewrite !calls_app, !prompts_app, Hasked. simpl.
          split.
          { exists [npm_command], (Console.calls new).
            split; [reflexivity|]. split; [right; auto|].
            split; [exact Hall | exact Hsome]. }
          split; [|exists asked; auto].
          intros H. destruct (Hn (Hdecl H)). }
        destruct (results ["npm"; "install"; "-g"; "prettier"])
          as [|rc|msg]; simpl.
        -- exact (Hafter _).
        -- exact (Hafter _).
        -- eexists. split; [exact H3|]. simpl.
           split.
           { exists [npm_command], [].
             split; [reflexivity|]. split; [right; auto|].
             split; [constructor | intros H; destruct H; reflexivity]. }
           split; [intros H; destruct (Hn (Hdecl H))|].
           exists false. split; [reflexivity | discriminate].
    + eexists. split.
      { exact (follows_trans _ _ _ _ _ Hin (follows_print "" w1)). }
      simpl. split.
      { exists [], [].
        split; [reflexivity|]. split; [left; reflexivity|].
        split; [constructor | intros H; destruct H; reflexivity]. }
      split; [reflexivity|]. exists false. split; [reflexivity | discriminate].
Qed.

Lemma prompt_install_trace w :
  exists new,
    follows w (prompt_install w).2 new
    /\ (exists npm_calls pip_calls,
          Console.calls new = npm_calls ++ pip_calls
          /\ (npm_calls = []
              \/ (npm_calls = [npm_command]
                  /\ truthy_opt (installed "prettier") = false
                  /\ truthy_opt (installed "npm") = true))
          /\ Forall (fun cmd => cmd ∈ strategies executable "black") pip_calls
          /\ (pip_calls <> [] -> truthy_opt (installed "black") = false))
    /\ (Forall Console.declines (Console.answers w) -> Console.calls new = [])
    /\ (exists asked : bool,
          Console.prompts new
          = (if negb (truthy_opt (installed "prettier"))
                && truthy_opt (installed "npm")
             then [npm_prompt] else [])
            ++ (if asked then [pip_prompt] else [])
          /\ (asked = true -> truthy_opt (installed "black") = false))
    /\ (get_missing_formatters (fun _ : Console.world => installed) w = [] ->
        new = []).
Proof.
  unfold prompt_install_formatters.
  destruct (missing_filters w) as [Hpip Hnpm].
  destruct (get_missing_formatters (fun _ : Console.world => installed) w)
    as [|m missing] eqn:Hmissing.
  - pose proof (get_missing_formatters_nil _ _ Hmissing) as Hall.
    unfold recommended in Hall.
    apply Forall_cons in Hall as [Hprettier Hall].
    exists []. split; [apply follows_refl|]. simpl.
    split.
    { exists [], []. split; [reflexivity|]. split; [left; reflexivity|].
      split; [constructor | intros H; destruct H; reflexivity]. }
    split; [reflexivity|]. split; [|reflexivity].
    exists false. rewrite Hprettier. simpl.
    split; [reflexivity | discriminate].
  - cbv zeta in Hpip, Hnpm.
    destruct (report_prints (m :: missing) w) as [lines Hreport].
    set (w1 := report (m :: missing) w) in *.
    assert (Hnpm_case : List.filter (has_key "npm") (m :: missing) = []
                        \/ List.filter (has_key "npm") (m :: missing) = ["prettier"]).
    { rewrite Hnpm. destruct (truthy_opt (installed "prettier")); auto. }
    assert (Hpip_case : List.filter (has_key "pip") (m :: missing) = []
                        \/ List.filter (has_key "pip") (m :: missing) = ["black"]).
    { rewrite Hpip. destruct (truthy_opt (installed "black")); auto. }
    destruct (npm_question_trace _ _ w1 Hnpm_case Hpip_case)
      as (new & Hnew & (npm_calls & pip_calls & Hcalls & Hnpm_calls & Hpip_calls
                        & Hpip_some)
          & Hdecl & asked & Hasked & Hblack).
    assert (Hblack' : List.filter (has_key "pip") (m :: missing) = ["black"] ->
                      truthy_opt (installed "black") = false).
    { rewrite Hpip. destruct (truthy_opt (installed "black"));
        [discriminate | reflexivity]. }
    assert (Hprettier' : List.filter (has_key "npm") (m :: missing) = ["prettier"] ->
                         truthy_opt (installed "prettier") = false).
    { rewrite Hnpm. destruct (truthy_opt (installed "prettier"));
        [discriminate | reflexivity]. }
    exists (map Console.Printed lines ++ new).
    split; [exact (follows_trans _ _ _ _ _ Hreport Hnew)|].
    rewrite calls_app, prompts_app, calls_printed, prompts_printed. simpl.
    split.
    { exists npm_calls, pip_calls. split; [exact Hcalls|]. split.
      - destruct Hnpm_calls as [->|(-> & Hp & Hn)]; [left; reflexivity|].
        right. auto.
      - split; [exact Hpip_calls | auto]. }
    split.
    { intros H. apply Hdecl. exact (follows_declines _ _ _ Hreport H). }
    split; [|discriminate].
    exists asked. split; [|auto]. rewrite Hasked. f_equal.
    rewrite Hnpm. destruct (truthy_opt (installed "prettier")); reflexivity.
Qed.

(** X13: whatever is typed and however the commands end,
    [prompt_install_formatters] runs no command other than
    [npm install -g prettier], at most once, first, and only when
    [prettier] is missing and [npm] is found, and the [pip] commands of
    [pip_install] for [black], only when [black] is missing; [ruff],
    though it has a [pip] entry, is never installed. *)
Theorem prompt_install_formatters_installs_only_prettier_and_black w :
  exists new npm_calls pip_calls,
    Console.log (prompt_install w).2 = Console.log w ++ new
    /\ Console.calls new = npm_calls ++ pip_calls
    /\ (npm_calls = []
        \/ (npm_calls = [npm_command]
            /\ truthy_opt (installed "prettier") = false
            /\ truthy_opt (installed "npm") = true))
    /\ Forall (fun cmd => cmd ∈ strategies executable "black") pip_calls
    /\ (pip_calls <> [] -> truthy_opt (installed "black") = false).
Proof.
  destruct (prompt_install_trace w)
    as (new & [Hlog _] & (npm_calls & pip_calls & H) & _).
  exists new, npm_calls, pip_calls. split; [exact Hlog | exact H].
Qed.

(** X14: when every line typed is [n] once stripped and lowered (or the
    input ends), [prompt_install_formatters] runs no command at all. *)
Theorem prompt_install_formatters_declined w :
  Forall Console.declines (Console.answers w) ->
  exists new,
    Console.log (prompt_install w).2 = Console.log w ++ new
    /\ Console.calls new = [].
Proof.
  intros Hdecl.
  destruct (prompt_install_trace w) as (new & [Hlog _] & _ & Hnone & _).
  exists new. split; [exact Hlog | exact (Hnone Hdecl)].
Qed.

(** X15: [prompt_install_formatters] asks at most two questions, the
    one about [npm] first: it asks it exactly when [prettier] is missing
    and [npm] is found, and asks about [pip] only when [black] is
    missing; when nothing is missing it prints and asks nothing. *)
Theorem prompt_install_formatters_questions w :
  exists new (asked : bool),
    Console.log (prompt_install w).2 = Console.log w ++ new
    /\ Console.prompts new
       = (if negb (truthy_opt (installed "prettier"))
             && truthy_opt (installed "npm")
          then [npm_prompt] else [])
         ++ (if asked then [pip_prompt] else [])
    /\ (asked = true -> truthy_opt (installed "black") = false)
    /\ (get_missing_formatters (fun _ : Console.world => installed) w = [] ->
        new = []).
Proof.
  destruct (prompt_install_trace w)
    as (new & [Hlog _] & _ & _ & (asked & Hasked & Hblack) & Hsilent).
  exists new, asked. auto.
Qed.

End PromptFacts.

(** ** Unrecognised indent types and errors without text *)

(** X16: an [indentType] that is neither [spaces] nor [tabs] (another
    spelling, or a value that is not a string) is taken as spaces by
    [prettier], [biome], [clang-format] and [rustfmt], whose commands are
    those for [spaces], but as tabs by [shfmt], which gets [-i 0]. *)
Theorem unrecognised_indent_type (indent_type indent_size : pyval) :
  eq_str indent_type "spaces" = false ->
  eq_str indent_type "tabs" = false ->
  Forall (fun cmd =>
            indent_args cmd indent_type indent_size
            = indent_args cmd (PStr "spaces") indent_size)
    ["prettier"; "biome"; "clang-format"; "rustfmt"]
  /\ indent_args "shfmt" indent_type indent_size = ["-i"; "0"]
  /\ indent_args "shfmt" (PStr "tabs") indent_size = ["-i"; "0"].
Proof.
  intros Hspaces Htabs. split; [|split].
  - repeat constructor; unfold indent_args; simpl; rewrite Htabs; reflexivity.
  - unfold indent_args. simpl. rewrite Hspaces. reflexivity.
  - reflexivity.
Qed.

(** X17: when [format_code] reports failure it always returns an error
    text, and that text is empty only when [subprocess.run] raised an
    exception whose [str()] is empty. *)
Theorem format_code_failure_has_error {host : Type}
    (which : host -> string -> option string)
    (subprocess_run : invocation -> host -> run_outcome * host)
    code language options h :
  (format_code which subprocess_run code language options h).1.1.1 = false ->
  exists e,
    (format_code which subprocess_run code language options h).1.2 = Some e
    /\ (e = EmptyString ->
        exists cmd args,
          find_formatter which h language = Some (cmd, args)
          /\ (subprocess_run (run_call (build_command cmd args options) code) h).1
             = Raised EmptyString).
Proof.
  unfold format_code.
  destruct (find_formatter which h language) as [[cmd args]|] eqn:Hfind.
  - destruct (subprocess_run _ h) as [r h'] eqn:Hrun. simpl.
    destruct r as [rc out err| |msg]; simpl.
    + destruct (rc =? 0); [discriminate|].
      destruct (truthy out && truthy (strip out)); [discriminate|].
      intros _. eexists. split; [reflexivity|]. intros He. exfalso.
      unfold or_else in He. destruct (truthy err) eqn:Herr.
      * rewrite He in Herr. discriminate.
      * destruct cmd; discriminate.
    + intros _. eexists. split; [reflexivity | discriminate].
    + intros _. exists msg. split; [reflexivity|]. intros ->.
      exists cmd, args. split; [reflexivity | rewrite Hrun; reflexivity].
  - simpl. intros _. eexists. split; [reflexivity | discriminate].
Qed.

(** ** The further properties at sample hosts *)

Lemma format_endpoint_response_shape_witness :
  truthy (default "" (body_language
            {| body_code := Some "x=1"; body_language := Some "python";
               body_options := None; body_other_keys := false |})) = true
  /\ exists resp,
      format_endpoint (Sample.only "black" "/usr/bin/black")
        (Sample.always (Completed 0 "x = 1" ""))
        {| body_code := Some "x=1"; body_language := Some "python";
           body_options := None; body_other_keys := false |} []
      = ((200, resp), [])
      /\ resp !! "success" = Some (PBool true)
      /\ resp !! "result" = Some (PStr "x = 1")
      /\ resp !! "error" = None.
Proof.
  split; [reflexivity|].
  destruct (format_endpoint_response_shape
              (Sample.only "black" "/usr/bin/black")
              (Sample.always (Completed 0 "x = 1" ""))
              {| body_code := Some "x=1"; body_language := Some "python";
                 body_options := None; body_other_keys := false |} []
              eq_refl)
    as (resp & Hresp & Hsuccess & Hresult & Herror & _).
  exists resp. auto.
Defined.

Lemma find_formatter_monotone_witness :
  ((forall cmd,
       truthy_opt (Hosts.ruff_optional false cmd) = true ->
       truthy_opt (Hosts.ruff_optional true cmd) = true)
   /\ find_formatter Hosts.ruff_optional false "python" = Some ("black", ["-"]))
  /\ exists formatters cmd2 args2 (i1 i2 : nat) x1 x2,
      assoc FORMATTERS "python" = Some formatters
      /\ find_formatter Hosts.ruff_optional true "python" = Some (cmd2, args2)
      /\ formatters !! i1 = Some ("black", ["-"], x1)
      /\ formatters !! i2 = Some (cmd2, args2, x2)
      /\ (i2 <= i1)%nat.
Proof.
  assert (Hmore : forall cmd,
             truthy_opt (Hosts.ruff_optional false cmd) = true ->
             truthy_opt (Hosts.ruff_optional true cmd) = true).
  { intros cmd. unfold Hosts.ruff_optional.
    destruct (String.eqb cmd "black"); [auto|].
    destruct (String.eqb cmd "ruff"); simpl; [reflexivity | auto]. }
  split; [split; [exact Hmore | reflexivity]|].
  apply (find_formatter_monotone Hosts.ruff_optional false true "python"
           "black" ["-"] Hmore).
  reflexivity.
Defined.

Lemma launch_leaves_pipe_closed_witness :
  (0 < 4002 /\ 4002 < 2 ^ 31
   /\ Launch.exec 4001 4002
        [Launcher; Launcher; Launcher; Relay; Relay; Relay; Service; Relay;
         Launcher; Relay; Relay; Launcher; Launcher; Launcher; Service]
        initial
      = Some {| launcher := L_returned "4002" 4002; relay := R_reaped;
                service := S_serving; pipe := "";
                l_rd := false; l_wr := false; r_rd := false; r_wr := false;
                s_rd := false; s_wr := false; relay_leads_session := true |})
  /\ readers {| launcher := L_returned "4002" 4002; relay := R_reaped;
                service := S_serving; pipe := "";
                l_rd := false; l_wr := false; r_rd := false; r_wr := false;
                s_rd := false; s_wr := false; relay_leads_session := true |}
     = false
  /\ writers {| launcher := L_returned "4002" 4002; relay := R_reaped;
                service := S_serving; pipe := "";
                l_rd := false; l_wr := false; r_rd := false; r_wr := false;
                s_rd := false; s_wr := false; relay_leads_session := true |}
     = false.
Proof.
  assert (Hexec : Launch.exec 4001 4002
            [Launcher; Launcher; Launcher; Relay; Relay; Relay; Service; Relay;
             Launcher; Relay; Relay; Launcher; Launcher; Launcher; Service]
            initial
          = Some {| launcher := L_returned "4002" 4002; relay := R_reaped;
                    service := S_serving; pipe := "";
                    l_rd := false; l_wr := false; r_rd := false; r_wr := false;
                    s_rd := false; s_wr := false; relay_leads_session := true |})
    by (vm_compute; reflexivity).
  split; [repeat split; try lia; exact Hexec|].
  destruct (launch_leaves_pipe_closed 4001 4002 ltac:(lia) ltac:(lia)
              _ _ "4002" 4002 Hexec eq_refl)
    as (_ & _ & _ & _ & _ & Hserving).
  exact (Hserving eq_refl).
Defined.

Lemma relay_write_succeeds_witness :
  (0 < 4002 /\ 4002 < 2 ^ 31)
  /\ exists k,
      Launch.exec 4001 4002 [Launcher; Launcher; Relay; Relay; Relay] initial
      = Some k
      /\ relay k = R_forked
      /\ readers k = true
      /\ exists k',
          Launch.step 4001 4002 Relay k = Some k'
          /\ relay k' = R_written /\ pipe k' = str_int 4002.
Proof.
  split; [lia|].
  destruct (Launch.exec 4001 4002 [Launcher; Launcher; Relay; Relay; Relay] initial)
    as [k|] eqn:Hexec; [|vm_compute in Hexec; discriminate].
  assert (Hrelay : relay k = R_forked).
  { vm_compute in Hexec. injection Hexec as <-. reflexivity. }
  exists k. split; [reflexivity|]. split; [exact Hrelay|].
  exact (relay_write_succeeds 4001 4002 ltac:(lia) ltac:(lia) _ k Hexec Hrelay).
Defined.

Lemma service_runs_in_new_session_witness :
  exists k,
    Launch.exec 4001 4002 [Launcher; Launcher; Relay; Relay; Relay; Service] initial
    = Some k
    /\ service k <> S_absent
    /\ relay_leads_session k = true.
Proof.
  destruct (Launch.exec 4001 4002
              [Launcher; Launcher; Relay; Relay; Relay; Service] initial)
    as [k|] eqn:Hexec; [|vm_compute in Hexec; discriminate].
  assert (Hservice : service k <> S_absent).
  { vm_compute in Hexec. injection Hexec as <-. discriminate. }
  exists k. split; [reflexivity|]. split; [exact Hservice|].
  exact (service_runs_in_new_session 4001 4002 _ k Hexec Hservice).
Defined.

Lemma nothing_missing_covers_all_but_sql_and_java_witness :
  get_missing_formatters (fun _ : unit => Hosts.installed recommended) tt = []
  /\ is_Some (get_available_formatters
                (fun _ : unit => Hosts.installed recommended) tt !! "python")
  /\ get_available_formatters
       (fun _ : unit => Hosts.installed recommended) tt !! "sql" = None.
Proof.
  split; [reflexivity|].
  destruct (nothing_missing_covers_all_but_sql_and_java
              (fun _ : unit => Hosts.installed recommended) tt eq_refl)
    as [Hcovered Hrest].
  split.
  - apply (Hcovered "python"); [|intro; discriminate|intro; discriminate].
    apply (bool_decide_unpack _). vm_compute. reflexivity.
  - apply Hrest. intros cmd. unfold Hosts.installed.
    destruct (existsb (String.eqb cmd) recommended) eqn:E; [|discriminate].
    intros _. apply existsb_exists in E as (x & Hx & Heq).
    apply String.eqb_eq in Heq as ->. apply list_elem_of_In, Hx.
Defined.

Lemma prompt_install_formatters_declined_witness :
  Forall Console.declines [Some " N "; None]
  /\ exists new,
      Console.log
        (prompt_install_formatters
           (fun _ : Console.world => Hosts.installed ["npm"])
           Console.print Console.input
           (Console.check_call (fun _ => CallReturned))
           (fun _ => "Linux") "/usr/bin/python3"
           {| Console.log := []; Console.answers := [Some " N "; None] |}).2
      = [] ++ new
      /\ Console.calls new = [].
Proof.
  assert (Hdecl : Forall Console.declines [Some " N "; None]).
  { repeat constructor. }
  split; [exact Hdecl|].
  exact (prompt_install_formatters_declined (Hosts.installed ["npm"]) "Linux"
           (fun _ => CallReturned) "/usr/bin/python3"
           {| Console.log := []; Console.answers := [Some " N "; None] |} Hdecl).
Defined.

Lemma unrecognised_indent_type_witness :
  (eq_str (PStr "TABS") "spaces" = false /\ eq_str (PStr "TABS") "tabs" = false)
  /\ indent_args "prettier" (PStr "TABS") (PInt 4) = ["--tab-width"; "4"]
  /\ indent_args "shfmt" (PStr "TABS") (PInt 4) = ["-i"; "0"].
Proof.
  split; [split; reflexivity|].
  destruct (unrecognised_indent_type (PStr "TABS") (PInt 4) eq_refl eq_refl)
    as (Hothers & Hshfmt & _).
  apply Forall_cons in Hothers as [Hprettier _].
  split; [exact Hprettier | exact Hshfmt].
Defined.

Lemma format_code_failure_has_error_witness :
  (format_code (Sample.only "black" "/usr/bin/black")
     (Sample.always (Raised "")) "x=1" "python" ∅ []).1.1.1 = false
  /\ exists e,
      (format_code (Sample.only "black" "/usr/bin/black")
         (Sample.always (Raised "")) "x=1" "python" ∅ []).1.2 = Some e.
Proof.
  split; [reflexivity|].
  destruct (format_code_failure_has_error
              (Sample.only "black" "/usr/bin/black")
              (Sample.always (Raised "")) "x=1" "python" ∅ [] eq_refl)
    as (e & He & _).
  exists e. exact He.
Defined.
